(** * WorknAI front end: the data-driven view state of the catalog and
    course-detail pages

  A shallow embedding of the stateful core of two React components,
  [Home] (src/pages/Home.tsx) and [CourseDetailPage] (the course-detail
  page), together with the properties their specification states about
  them.  React state is a record, an effect run is a closure with its
  own [isMounted] flag, a promise settles through an explicit event, and
  JavaScript numbers are IEEE-754 binary64 values. *)

From Stdlib Require Import ZArith Floats Uint63 DecimalString Ascii.
From stdpp Require Import list strings.

(** ** JavaScript primitives used by the two pages *)

Module JS.

(** A [number] is a binary64 float; [-], [/] and [*] are the IEEE
    operations of [PrimFloat]. *)
Definition number := float.

(** [ToNumber] of a property that may be missing: [undefined] is NaN. *)
Definition ToNumber (v : option number) : number :=
  match v with
  | Some x => x
  | None => nan
  end.

(** An integer of magnitude at most 2^53 as a [number] (exact). *)
Definition of_Z (r : Z) : number :=
  if (r <? 0)%Z then PrimFloat.opp (PrimFloat.of_uint63 (Uint63.of_Z (- r)))
  else PrimFloat.of_uint63 (Uint63.of_Z r).

(** [Math.round]: NaN, the infinities and integral values are returned
    as they are; otherwise the nearest integer, ties towards +Infinity,
    that is floor(x + 1/2) computed exactly; a result of zero keeps the
    sign of the argument. *)
Definition Math_round (x : number) : number :=
  match Prim2SF x with
  | S754_finite s m e =>
      if (0 <=? e)%Z then x
      else
        let n := if s then Zneg m else Zpos m in
        let r := ((2 * n + 2 ^ (- e)) / 2 ^ (1 - e))%Z in
        if (r =? 0)%Z then (if s then (-0)%float else 0%float) else of_Z r
  | _ => x
  end.

(** Truthiness of a string that may be [undefined] or [null]. *)
Definition truthy (s : option string) : bool :=
  match s with
  | Some s => negb (String.eqb s "")
  | None => false
  end.

(** [String(n)] for an array length. *)
Definition String_of_length (n : nat) : string :=
  NilEmpty.string_of_uint (Nat.to_uint n).

(** [s.split(" ")]: cut at every single space; two spaces in a row
    give an empty piece, and the empty string gives one empty piece. *)
Fixpoint split_space (s : string) : list string :=
  match s with
  | EmptyString => [EmptyString]
  | String c rest =>
      if Ascii.eqb c " " then EmptyString :: split_space rest
      else
        match split_space rest with
        | w :: ws => String c w :: ws
        | [] => [String c EmptyString]
        end
  end.

(** Not a number, or an infinity. *)
Definition sf_not_finite (x : spec_float) : Prop :=
  match x with
  | S754_nan | S754_infinity _ => True
  | _ => False
  end.

(** Sign bit clear, or not a number: what [x < 0] is false for. *)
Definition sf_sign_clear (x : spec_float) : Prop :=
  match x with
  | S754_nan => True
  | S754_zero s | S754_infinity s | S754_finite s _ _ => s = false
  end.

(** A thrown value: an [Error] with its message, or anything else. *)
Inductive thrown :=
| ErrorObject (message : string)
| NotAnError.

End JS.

(** ** Records of the catalog API (services/api) *)

Module Api.

Record TechnicalSpec := {
  label : string;
  value : string;
  icon : string
}.

Record Topic := { topic_name : string }.

Record Week := {
  week_label : string;
  week_title : string;
  topics : list Topic
}.

Record SyllabusPhase := {
  month : string;
  title : string;
  desc : string;
  weeks : list Week
}.

(** A catalog entry.  [status] is the string the server sent. *)
Record Course := {
  course_id : string;
  course_name : string;
  course_status : string
}.

(** A course-detail record.  A field the page reads through [?.] or
    [||] is an [option]: [None] is a missing property. *)
Record CourseDetail := {
  name : string;
  status : string;
  language : string;
  originalPrice : option JS.number;
  discountedPrice : option JS.number;
  certificateImage : option string;
  technicalSpecs : option (list TechnicalSpec);
  syllabusPhases : option (list SyllabusPhase)
}.

#[global] Instance TechnicalSpec_eq_dec : EqDecision TechnicalSpec.
Proof. solve_decision. Defined.

#[global] Instance Course_eq_dec : EqDecision Course.
Proof. solve_decision. Defined.

End Api.

(** ** Effect runs

  Both pages fetch inside a [useEffect] whose body declares
  [let isMounted = true] and whose cleanup sets it to [false].  Every
  run of the effect has its own flag; the runs of one component are
  kept oldest first, so the position of a run is its fetch generation. *)

Module Effect.

Record run := {
  isMounted : bool;  (* the closure's flag *)
  pending : bool     (* the awaited promise has not settled yet *)
}.

Definition unmount (r : run) : run :=
  {| isMounted := false; pending := pending r |}.

Definition settled (r : run) : run :=
  {| isMounted := isMounted r; pending := false |}.

(** The cleanup React calls belongs to the latest run. *)
Definition cleanup (rs : list run) : list run :=
  alter unmount (pred (length rs)) rs.

(** A new run: the flag starts [true]. *)
Definition start (fetching : bool) (rs : list run) : list run :=
  rs ++ [{| isMounted := true; pending := fetching |}].

(** Every run but the latest has been cleaned up. *)
Definition superseded_unmounted (rs : list run) : Prop :=
  ∀ g r, rs !! g = Some r → S g < length rs → isMounted r = false.

Definition all_unmounted (rs : list run) : Prop :=
  ∀ g r, rs !! g = Some r → isMounted r = false.

(** The latest run is the one whose flag can still be [true]. *)
Definition latest_mounted (rs : list run) : Prop :=
  ∃ r, rs !! pred (length rs) = Some r ∧ isMounted r = true.

End Effect.

(** ** The landing page: [Home] *)

Module Home.
Import Api.

(** [type FilterType = CourseStatus | "All"] *)
Inductive FilterType := All | Online | Offline | Hybrid.

#[global] Instance FilterType_eq_dec : EqDecision FilterType.
Proof. solve_decision. Defined.

(** The string a filter value is at run time. *)
Definition filter_string (f : FilterType) : string :=
  match f with
  | All => "All"
  | Online => "Online"
  | Offline => "Offline"
  | Hybrid => "Hybrid"
  end.

(** [filteredCourses].  [courses] is [None] when the state holds
    something that is not an array. *)
Definition filteredCourses (courses : option (list Course)) (filter : FilterType)
  : list Course :=
  match courses with
  | None => []
  | Some courses =>
      match filter with
      | All => courses
      | _ =>
          List.filter
            (λ course, String.eqb (course_status course) (filter_string filter))
            courses
      end
  end.

(** The specification's wording, for comparison: the subsequence of
    [L] whose elements have the given status, in the order of [L]. *)
Fixpoint with_status (f : FilterType) (L : list Course) : list Course :=
  match L with
  | [] => []
  | c :: L' =>
      if decide (course_status c = filter_string f)
      then c :: with_status f L'
      else with_status f L'
  end.

(** *** Component state *)

Record state := {
  courses : option (list Course);
  loading : bool;
  error : string;
  filter : FilterType
}.

(** The [useState] initial values. *)
Definition initial : state :=
  {| courses := Some []; loading := true; error := ""; filter := All |}.

Definition setCourses (data : option (list Course)) (v : state) : state :=
  {| courses := data; loading := loading v; error := error v; filter := filter v |}.

Definition setLoading (b : bool) (v : state) : state :=
  {| courses := courses v; loading := b; error := error v; filter := filter v |}.

Definition setError (msg : string) (v : state) : state :=
  {| courses := courses v; loading := loading v; error := msg; filter := filter v |}.

Definition setFilter (f : FilterType) (v : state) : state :=
  {| courses := courses v; loading := loading v; error := error v; filter := f |}.

(** The argument of [coursesApi.getAllCourses]. *)
Record query := { sort : string; limit : nat }.

(** A mounted [Home]: its React state, the runs of the fetch effect,
    the gateway calls made so far and the lines sent to
    [console.error]. *)
Record component := {
  view : state;
  runs : list Effect.run;
  requests : list query;
  console : list string;
  alive : bool
}.

(** How the awaited promise settles.  [Fulfilled None] is a value
    that is not an array. *)
Inductive outcome :=
| Fulfilled (data : option (list Course))
| Rejected (err : JS.thrown).

(** [fetchCourses] up to its [await], inside a new run of the effect. *)
Definition fetchCourses_begin (c : component) : component :=
  {| view := setError "" (setLoading true (view c));
     runs := Effect.start true (runs c);
     requests := requests c ++ [{| sort := "-createdAt"; limit := 6 |}];
     console := console c;
     alive := alive c |}.

Definition errorMessage (err : JS.thrown) : string :=
  match err with
  | JS.ErrorObject message => message
  | JS.NotAnError => "Failed to fetch courses"
  end.

(** [fetchCourses] after the [await], with the flag of its own run:
    the [try] or the [catch] block, then [finally]. *)
Definition fetchCourses_resume (isMounted : bool) (o : outcome)
    (v : state) (log : list string) : state * list string :=
  let '(v, log) :=
    match o with
    | Fulfilled data =>
        if isMounted then (setCourses data v, log) else (v, log)
    | Rejected err =>
        if isMounted then
          (setError (errorMessage err) v, log ++ ["Error fetching courses:"])
        else (v, log)
    end in
  if isMounted then (setLoading false v, log) else (v, log).

(** The effect has no dependencies: it runs on mount.  [Rerun] is
    React invoking cleanup and effect once more, as Strict Mode does. *)
Inductive event :=
| Rerun
| Unmount
| Settle (g : nat) (o : outcome)
| SetFilter (f : FilterType).

Definition mount : component :=
  fetchCourses_begin
    {| view := initial; runs := []; requests := []; console := []; alive := true |}.

(** One event.  [None]: the event cannot happen in this state (the
    component is gone, or no promise of that generation is pending). *)
Definition step (c : component) (e : event) : option component :=
  match e with
  | Rerun =>
      if alive c then
        Some (fetchCourses_begin
                {| view := view c; runs := Effect.cleanup (runs c);
                   requests := requests c; console := console c; alive := true |})
      else None
  | Unmount =>
      if alive c then
        Some {| view := view c; runs := Effect.cleanup (runs c);
                requests := requests c; console := console c; alive := false |}
      else None
  | Settle g o =>
      match runs c !! g with
      | Some r =>
          if Effect.pending r then
            let '(v, log) :=
              fetchCourses_resume (Effect.isMounted r) o (view c) (console c) in
            Some {| view := v; runs := alter Effect.settled g (runs c);
                    requests := requests c; console := log; alive := alive c |}
          else None
      | None => None
      end
  | SetFilter f =>
      if alive c then
        Some {| view := setFilter f (view c); runs := runs c;
                requests := requests c; console := console c; alive := true |}
      else None
  end.

Fixpoint run_events (c : component) (tr : list event) : option component :=
  match tr with
  | [] => Some c
  | e :: tr' =>
      match step c e with
      | Some c' => run_events c' tr'
      | None => None
      end
  end.

Definition reachable (c : component) : Prop :=
  ∃ tr, run_events mount tr = Some c.

(** What holds of the effect runs in every state the component can
    reach. *)
Record home_wf (c : component) : Prop := {
  home_wf_superseded : Effect.superseded_unmounted (runs c);
  home_wf_gone : alive c = false → Effect.all_unmounted (runs c);
  home_wf_latest : alive c = true → Effect.latest_mounted (runs c)
}.

End Home.

(** ** The course-detail page: [CourseDetailPage] *)

Module CourseDetailPage.
Import Api (TechnicalSpec, SyllabusPhase, CourseDetail).

Definition DEFAULT_CERTIFICATE_IMAGE : string := "Certificate Copy.jpeg".
Definition WEEKS_PER_PHASE : nat := 4.

(** *** Memoized projections of [course] *)

Definition discountPercent (course : option CourseDetail) : JS.number :=
  match course with
  | None => 0%float
  | Some course =>
      JS.Math_round
        (((JS.ToNumber (Api.originalPrice course)
           - JS.ToNumber (Api.discountedPrice course))
          / JS.ToNumber (Api.originalPrice course)) * 100)%float
  end.

(** [course.syllabusPhases?.length || 6] *)
Definition months (course : CourseDetail) : nat :=
  match Api.syllabusPhases course with
  | None => 6
  | Some phases => if Nat.eqb (length phases) 0 then 6 else length phases
  end.

(** [course.technicalSpecs || [...]]: an array is truthy, also an
    empty one; only a missing list takes the right-hand side. *)
Definition technicalSpecs (course : option CourseDetail) : list TechnicalSpec :=
  match course with
  | None => []
  | Some course =>
      match Api.technicalSpecs course with
      | Some specs => specs
      | None =>
          [ {| Api.label := "Duration";
               Api.value := JS.String_of_length (months course) +:+ " Months";
               Api.icon := "M12 6v6h4.5m4.5 0a9 9 0 1 1-18 0 9 9 0 0 1 18 0Z" |};
            {| Api.label := "Mode";
               Api.value := Api.status course;
               Api.icon := "M9 17.25v1.007a3 3 0 0 1-.879 2.122L7.5 21h9l-.621-.621A3 3 0 0 1 15 18.257V17.25m6-12V15a2.25 2.25 0 0 1-2.25 2.25H5.25A2.25 2.25 0 0 1 3 15V5.25m18 0A2.25 2.25 0 0 0 18.75 3H5.25A2.25 2.25 0 0 0 3 5.25m18 0V12a2.25 2.25 0 0 1-2.25 2.25H5.25A2.25 2.25 0 0 1 3 12V5.25" |};
            {| Api.label := "Language";
               Api.value := Api.language course;
               Api.icon := "M10.5 21l5.25-11.25L21 21m-9-3h7.5M3 5.621a48.474 48.474 0 0 1 6-.371m0 0c1.12 0 2.233.038 3.334.114M9 5.25V3m3.334 2.364C11.176 10.658 7.69 15.08 3 17.502m9.334-12.138c.896.061 1.785.147 2.666.257m-4.589 8.495a18.023 18.023 0 0 1-3.827-5.802" |} ]
      end
  end.

(** [course?.syllabusPhases || []] *)
Definition syllabusPhases (course : option CourseDetail) : list SyllabusPhase :=
  match course with
  | None => []
  | Some course =>
      match Api.syllabusPhases course with
      | Some phases => phases
      | None => []
      end
  end.

Definition totalWeeks (course : option CourseDetail) : nat :=
  length (syllabusPhases course) * WEEKS_PER_PHASE.

Definition courseNameParts (course : option CourseDetail) : list string :=
  match course with
  | None => []
  | Some course => JS.split_space (Api.name course)
  end.

(** *** Component state *)

Record state := {
  activePhase : nat;
  course : option CourseDetail;
  loading : bool;
  error : option string
}.

(** The [useState] initial values. *)
Definition initial : state :=
  {| activePhase := 0; course := None; loading := true; error := None |}.

Definition setActivePhase (i : nat) (v : state) : state :=
  {| activePhase := i; course := course v; loading := loading v; error := error v |}.

Definition setCourse (data : option CourseDetail) (v : state) : state :=
  {| activePhase := activePhase v; course := data; loading := loading v; error := error v |}.

Definition setLoading (b : bool) (v : state) : state :=
  {| activePhase := activePhase v; course := course v; loading := b; error := error v |}.

Definition setError (msg : option string) (v : state) : state :=
  {| activePhase := activePhase v; course := course v; loading := loading v; error := msg |}.

(** *** What the component returns *)

(** The syllabus section, shown when there is at least one phase. *)
Record syllabus_section := {
  total_weeks : nat;
  phase_months : list string;       (* one header button per phase *)
  highlighted : nat;                (* the header with [activePhase === i] *)
  shown_phase : SyllabusPhase       (* [syllabusPhases[activePhase]] *)
}.

Record course_page := {
  name_parts : list string;
  specs : list TechnicalSpec;
  discount_badge : option JS.number;   (* only when [discountPercent > 0] *)
  syllabus : option syllabus_section;
  certificate : string
}.

Inductive screen :=
| LoadingScreen
| ErrorScreen (message : string)
| NotFoundScreen                      (* COURSE_NOT_FOUND *)
| CourseScreen (page : course_page)
| RenderTypeError.                    (* a property of [undefined] is read *)

Definition page_of (c : CourseDetail) (section : option syllabus_section)
  : course_page :=
  {| name_parts := courseNameParts (Some c);
     specs := technicalSpecs (Some c);
     discount_badge :=
       if (0 <? discountPercent (Some c))%float
       then Some (discountPercent (Some c)) else None;
     syllabus := section;
     certificate :=
       if JS.truthy (Api.certificateImage c)
       then default DEFAULT_CERTIFICATE_IMAGE (Api.certificateImage c)
       else DEFAULT_CERTIFICATE_IMAGE |}.

Definition render (v : state) : screen :=
  if loading v then LoadingScreen
  else if JS.truthy (error v) then ErrorScreen (default "" (error v))
  else
    match course v with
    | None => NotFoundScreen
    | Some c =>
        let phases := syllabusPhases (course v) in
        if Nat.ltb 0 (length phases) then
          match phases !! activePhase v with
          | Some phase =>
              CourseScreen
                (page_of c
                   (Some {| total_weeks := totalWeeks (course v);
                            phase_months := Api.month <$> phases;
                            highlighted := activePhase v;
                            shown_phase := phase |}))
          | None => RenderTypeError
          end
        else CourseScreen (page_of c None)
    end.

(** The [onClick] handlers of the phase headers on screen, in order:
    [syllabusPhases.map((phase, i) => ... () => setActivePhase(i))]. *)
Definition phase_headers (v : state) : list (state → state) :=
  match render v with
  | CourseScreen page =>
      match syllabus page with
      | Some _ => imap (λ i _, setActivePhase i) (syllabusPhases (course v))
      | None => []
      end
  | _ => []
  end.

(** A request to select phase [i]: the click on header [i], when
    there is such a header. *)
Definition select (i : Z) (v : state) : state :=
  if (i <? 0)%Z then v
  else
    match phase_headers v !! Z.to_nat i with
    | Some onClick => onClick v
    | None => v
    end.

(** *** The fetch effect *)

Record component := {
  id : option string;             (* [useParams().id] *)
  view : state;
  runs : list Effect.run;
  requests : list string;         (* calls of [coursesApi.getCourseById] *)
  console : list string;
  alive : bool
}.

Inductive outcome :=
| Fulfilled (data : option CourseDetail)
| Rejected (err : JS.thrown).

Definition errorMessage (err : JS.thrown) : string :=
  match err with
  | JS.ErrorObject message => message
  | JS.NotAnError => "Failed to load course data. Please try again later."
  end.

(** [fetchCourse] up to its [await], inside a new run of the effect.
    Without an id the function throws before any call, and its own
    [catch] and [finally] run at once with the flag still [true]. *)
Definition fetchCourse_begin (c : component) : component :=
  let v := setError None (setLoading true (view c)) in
  if negb (JS.truthy (id c)) then
    {| id := id c;
       view := setLoading false (setError (Some "Course ID is required") v);
       runs := Effect.start false (runs c);
       requests := requests c;
       console := console c ++ ["Error fetching course:"];
       alive := alive c |}
  else
    {| id := id c; view := v;
       runs := Effect.start true (runs c);
       requests := requests c ++ [default "" (id c)];
       console := console c;
       alive := alive c |}.

(** The body of the effect: [if (id) fetchCourse() else ...]. *)
Definition effect (c : component) : component :=
  if JS.truthy (id c) then fetchCourse_begin c
  else
    {| id := id c;
       view := setLoading false (setError (Some "Course ID is missing") (view c));
       runs := Effect.start false (runs c);
       requests := requests c;
       console := console c;
       alive := alive c |}.

(** [fetchCourse] after the [await], with the flag of its own run. *)
Definition fetchCourse_resume (isMounted : bool) (o : outcome)
    (v : state) (log : list string) : state * list string :=
  let '(v, log) :=
    match o with
    | Fulfilled data =>
        if negb isMounted then (v, log) else (setCourse data v, log)
    | Rejected err =>
        if negb isMounted then (v, log)
        else (setError (Some (errorMessage err)) v,
              log ++ ["Error fetching course:"])
    end in
  if isMounted then (setLoading false v, log) else (v, log).

Inductive event :=
| Navigate (id' : option string)   (* the route parameter changes *)
| Unmount
| Settle (g : nat) (o : outcome)
| Click (i : Z).                   (* a request to select phase [i] *)

Definition mount (id0 : option string) : component :=
  effect {| id := id0; view := initial; runs := []; requests := [];
            console := []; alive := true |}.

(** One event.  [None]: the event cannot happen in this state.  The
    effect depends on [[id]]: React runs its cleanup and then the
    effect again only when the id is a different one. *)
Definition step (c : component) (e : event) : option component :=
  match e with
  | Navigate id' =>
      if alive c then
        if decide (id' = id c) then Some c
        else
          Some (effect {| id := id'; view := view c;
                          runs := Effect.cleanup (runs c);
                          requests := requests c; console := console c;
                          alive := true |})
      else None
  | Unmount =>
      if alive c then
        Some {| id := id c; view := view c; runs := Effect.cleanup (runs c);
                requests := requests c; console := console c; alive := false |}
      else None
  | Settle g o =>
      match runs c !! g with
      | Some r =>
          if Effect.pending r then
            let '(v, log) :=
              fetchCourse_resume (Effect.isMounted r) o (view c) (console c) in
            Some {| id := id c; view := v;
                    runs := alter Effect.settled g (runs c);
                    requests := requests c; console := log; alive := alive c |}
          else None
      | None => None
      end
  | Click i =>
      if alive c then
        Some {| id := id c; view := select i (view c); runs := runs c;
                requests := requests c; console := console c; alive := true |}
      else None
  end.

Fixpoint run_events (c : component) (tr : list event) : option component :=
  match tr with
  | [] => Some c
  | e :: tr' =>
      match step c e with
      | Some c' => run_events c' tr'
      | None => None
      end
  end.

Definition reachable (c : component) : Prop :=
  ∃ id0 tr, run_events (mount id0) tr = Some c.

(** The phase count the navigator works on. *)
Definition phaseCount (v : state) : nat := length (syllabusPhases (course v)).

(** What holds of the effect runs in every state the component can
    reach; while the mounted run is waiting, the spinner is on. *)
Record detail_wf (c : component) : Prop := {
  detail_wf_superseded : Effect.superseded_unmounted (runs c);
  detail_wf_gone : alive c = false → Effect.all_unmounted (runs c);
  detail_wf_latest : alive c = true → Effect.latest_mounted (runs c);
  detail_wf_loading : ∀ g r,
    runs c !! g = Some r →
    Effect.isMounted r = true → Effect.pending r = true →
    loading (view c) = true ∧ error (view c) = None
}.

(** The index is in range, or still at its initial value while no
    course with phases has arrived. *)
Definition phase_ok (c : component) : Prop :=
  activePhase (view c) = 0 ∨
  (activePhase (view c) < phaseCount (view c) ∧
   ∀ g r, runs c !! g = Some r →
          Effect.isMounted r = true → Effect.pending r = false).

Definition is_navigation (e : event) : bool :=
  match e with
  | Navigate _ => true
  | _ => false
  end.

End CourseDetailPage.

(** ** What [Home] puts on screen *)

Module HomeView.
Import Api Home.

Definition filterButtons : list FilterType := [All; Online; Offline; Hybrid].

(** [cat === "All" ? "All Tracks" : `${cat} Mode`] *)
Definition button_label (cat : FilterType) : string :=
  if decide (cat = All) then "All Tracks" else filter_string cat +:+ " Mode".

(** The button with [filter === cat] is the highlighted one. *)
Definition highlighted_buttons (v : state) : list FilterType :=
  List.filter (λ cat, bool_decide (filter v = cat)) filterButtons.

(** Truthiness of the [error] string. *)
Definition truthy_text (s : string) : bool := negb (String.eqb s "").

(** The three conditional blocks below the filter buttons:
    [loading && ...], [error && !loading && ...] and
    [!loading && !error && ...]. *)
Definition shows_spinner (v : state) : bool := loading v.

Definition shows_error (v : state) : bool :=
  truthy_text (error v) && negb (loading v).

Definition shows_grid (v : state) : bool :=
  negb (loading v) && negb (truthy_text (error v)).

(** Inside the grid: one card per filtered course, keyed by its id,
    or the message when there is none. *)
Inductive grid :=
| Cards (keys : list string)
| NoCoursesFound.

Definition grid_content (v : state) : grid :=
  let shown := filteredCourses (courses v) (filter v) in
  if Nat.ltb 0 (length shown) then Cards (course_id <$> shown)
  else NoCoursesFound.

(** The fetch of the latest run of the effect is still on its way. *)
Definition in_flight (c : component) : bool :=
  match last (runs c) with
  | Some r => Effect.pending r
  | None => false
  end.

Definition is_filter_change (e : event) : bool :=
  match e with
  | SetFilter _ => true
  | _ => false
  end.

(** The value of the last filter change of a trace. *)
Definition last_filter (tr : list event) : FilterType :=
  foldl (λ f e, match e with SetFilter f' => f' | _ => f end) All tr.

Definition reruns (tr : list event) : nat :=
  length (List.filter (λ e, match e with Rerun => true | _ => false end) tr).

(** The component with its filter replaced. *)
Definition with_filter (f : FilterType) (c : component) : component :=
  {| view := setFilter f (view c); runs := runs c; requests := requests c;
     console := console c; alive := alive c |}.

End HomeView.

(** ** More of what [CourseDetailPage] puts on screen *)

Module DetailView.
Import CourseDetailPage.

(** [course.originalPrice !== course.discountedPrice], which decides
    whether the original price is shown struck through.  Two missing
    prices are equal; NaN differs from itself. *)
Definition strikes_original (c : Api.CourseDetail) : bool :=
  match Api.originalPrice c, Api.discountedPrice c with
  | Some o, Some d => negb (o =? d)%float
  | None, None => false
  | _, _ => true
  end.

(** The certificate [<img>]: its [src] in the document and the
    [imageError] state. *)
Record certificate_image := {
  src : string;
  imageError : bool
}.

(** [handleImageError]: the first failure swaps in the default image. *)
Definition handleImageError (img : certificate_image) : certificate_image :=
  if negb (imageError img)
  then {| src := DEFAULT_CERTIFICATE_IMAGE; imageError := true |}
  else img.

Definition in_flight (c : component) : bool :=
  match last (runs c) with
  | Some r => Effect.pending r
  | None => false
  end.

Definition is_click (e : event) : bool :=
  match e with
  | Click _ => true
  | _ => false
  end.

(** The ids the route parameter takes along a trace, after [cur]:
    a navigation to the current id does not count. *)
Fixpoint visited (cur : option string) (tr : list event) : list (option string) :=
  match tr with
  | [] => []
  | Navigate id' :: tr' =>
      if decide (id' = cur) then visited cur tr' else id' :: visited id' tr'
  | _ :: tr' => visited cur tr'
  end.

(** The non-empty ids among them. *)
Definition fetched (ids : list (option string)) : list string :=
  omap (λ i, if JS.truthy i then i else None) ids.

Definition is_type_error (s : screen) : bool :=
  match s with
  | RenderTypeError => true
  | _ => false
  end.

(** The mounted page renders without throwing in [c] and in every
    state the trace goes through.  A render that throws makes React
    take the page down, which [step] does not follow: statements about
    what happens along a whole trace are about the traces singled out
    here. *)
Fixpoint renders_all (c : component) (tr : list event) : bool :=
  negb (alive c && is_type_error (render (view c))) &&
  match tr with
  | [] => true
  | e :: tr' =>
      match step c e with
      | Some c' => renders_all c' tr'
      | None => true
      end
  end.

(** The component with its active phase replaced. *)
Definition with_phase (i : nat) (c : component) : component :=
  {| id := id c; view := setActivePhase i (view c); runs := runs c;
     requests := requests c; console := console c; alive := alive c |}.

(** The number of spaces in a string. *)
Definition spaces (s : string) : nat :=
  length (List.filter (λ c, Ascii.eqb c " ") (String.list_ascii_of_string s)).

(** A zero of either sign, or not a number. *)
Definition sf_zero_or_nan (x : spec_float) : Prop :=
  match x with
  | S754_zero _ | S754_nan => True
  | _ => False
  end.

End DetailView.

(** ** The navigation bar: [Navbar] *)

Module Navbar.

Record link := { name : string; path : string }.

Definition navLinks : list link :=
  [ {| name := "Home"; path := "/" |};
    {| name := "Courses"; path := "/courses" |};
    {| name := "Bootcamp"; path := "/bootcamp" |};
    {| name := "Contact"; path := "/callback" |} ].

(** [isActive], with [location.pathname] as its first argument. *)
Definition isActive (pathname path : string) : bool := String.eqb pathname path.

(** The links drawn with the pill behind them. *)
Definition active_links (pathname : string) : list link :=
  List.filter (λ l, isActive pathname (path l)) navLinks.

End Navbar.

(** ** The technology ribbon: [Marquee] *)

Module Marquee.

Definition techs : list string :=
  ["MERN Stack"; "AI&ML"; "Python"; "Java FullStack"; "UI/UX Design";
   ".NET Core"; "Soft Skills"; "Java"; "SQL"].

Definition rgbAccents (isDarkMode : bool) : list string :=
  if isDarkMode then ["bg-fuchsia-500"; "bg-cyan-400"; "bg-blue-500"]
  else ["bg-rose-500"; "bg-emerald-500"; "bg-blue-500"].

(** [techs.concat(techs).map((tech, i) => ... accents[i % 3] ...)]:
    each entry with the class of its square; an index outside the
    array reads [undefined]. *)
Definition ribbon (accents techs : list string) : list (string * string) :=
  imap (λ i tech, (tech, default "undefined" (accents !! (i mod 3))))
       (techs ++ techs).

Definition items (isDarkMode : bool) : list (string * string) :=
  ribbon (rgbAccents isDarkMode) techs.

End Marquee.

(** ** Sample data *)

Module Samples.
Import Api.

Definition phase (m t : string) : SyllabusPhase :=
  {| month := m; title := t; desc := "";
     weeks := [ {| week_label := "Week 1"; week_title := t;
                   topics := [ {| topic_name := "Intro" |} ] |} ] |}.

(** Three phases, no spec list of its own, 1000 reduced to 750. *)
Definition courseA : CourseDetail :=
  {| name := "Full Stack Development";
     status := "Online";
     language := "English";
     originalPrice := Some 1000%float;
     discountedPrice := Some 750%float;
     certificateImage := None;
     technicalSpecs := None;
     syllabusPhases :=
       Some [phase "Month 1" "Foundations"; phase "Month 2" "Frontend";
             phase "Month 3" "Backend"] |}.

(** One phase, an empty spec list, free of charge. *)
Definition courseB : CourseDetail :=
  {| name := "Python";
     status := "Offline";
     language := "Hindi";
     originalPrice := Some 0%float;
     discountedPrice := Some 0%float;
     certificateImage := None;
     technicalSpecs := Some [];
     syllabusPhases := Some [phase "Month 1" "Basics"] |}.

Definition entry (i s : string) : Course :=
  {| course_id := i; course_name := i; course_status := s |}.

(** Six catalog entries, two of them online. *)
Definition catalog : list Course :=
  [entry "c1" "Offline"; entry "c2" "Online"; entry "c3" "Hybrid";
   entry "c4" "Offline"; entry "c5" "Online"; entry "c6" "Hybrid"].

(** The detail page after the id changed from "a" to "b" with the
    first fetch still on its way. *)
Definition two_loads : CourseDetailPage.component :=
  CourseDetailPage.effect
    {| CourseDetailPage.id := Some "b";
       CourseDetailPage.view := CourseDetailPage.view (CourseDetailPage.mount (Some "a"));
       CourseDetailPage.runs :=
         Effect.cleanup (CourseDetailPage.runs (CourseDetailPage.mount (Some "a")));
       CourseDetailPage.requests := ["a"];
       CourseDetailPage.console := [];
       CourseDetailPage.alive := true |}.

(** ... and after the second fetch has delivered [courseB]. *)
Definition b_first : CourseDetailPage.component :=
  default two_loads
    (CourseDetailPage.step two_loads
       (CourseDetailPage.Settle 1 (CourseDetailPage.Fulfilled (Some courseB)))).

(** The landing page after its effect ran a second time. *)
Definition two_fetches : Home.component :=
  Home.fetchCourses_begin
    {| Home.view := Home.view Home.mount;
       Home.runs := Effect.cleanup (Home.runs Home.mount);
       Home.requests := Home.requests Home.mount;
       Home.console := [];
       Home.alive := true |}.

(** ... and after the second fetch has delivered the catalog. *)
Definition catalog_first : Home.component :=
  default two_fetches
    (Home.step two_fetches (Home.Settle 1 (Home.Fulfilled (Some catalog)))).

End Samples.

(** * Properties *)

(** ** Effect runs: what cleanup, a new run and a settlement preserve *)

Section EffectFacts.
Import Effect.
Implicit Types (rs : list run) (r : run) (g : nat).

Lemma lookup_cleanup rs g r :
  cleanup rs !! g = Some r →
  ∃ r0, rs !! g = Some r0 ∧ pending r = pending r0 ∧
        (isMounted r = true → isMounted r0 = true ∧ S g < length rs).
Proof.
  unfold cleanup. intros H.
  destruct (decide (pred (length rs) = g)) as [<-|Hne].
  - rewrite list_lookup_alter_eq in H.
    destruct (rs !! pred (length rs)) as [r0|]; [|done].
    injection H as <-. exists r0. split_and!; [done..|]. simpl. discriminate.
  - rewrite list_lookup_alter_ne in H by done.
    exists r. split_and!; [done..|]. intros Hm. split; [done|].
    apply lookup_lt_Some in H. lia.
Qed.

Lemma lookup_settled rs g g' r :
  alter settled g' rs !! g = Some r →
  ∃ r0, rs !! g = Some r0 ∧ isMounted r = isMounted r0 ∧
        (pending r = true → pending r0 = true ∧ g ≠ g').
Proof.
  intros H. destruct (decide (g' = g)) as [->|Hne].
  - rewrite list_lookup_alter_eq in H.
    destruct (rs !! g) as [r0|]; [|done].
    injection H as <-. exists r0. split_and!; [done..|]. simpl. discriminate.
  - rewrite list_lookup_alter_ne in H by done.
    exists r. by split_and!.
Qed.

Lemma all_unmounted_cleanup rs :
  superseded_unmounted rs → all_unmounted (cleanup rs).
Proof.
  intros Hs g r Hg. destruct (isMounted r) eqn:Hm; [|done].
  destruct (lookup_cleanup _ _ _ Hg) as (r0 & H0 & _ & Hr).
  destruct (Hr Hm) as [Hm0 Hlt]. rewrite (Hs _ _ H0 Hlt) in Hm0. done.
Qed.

Lemma all_unmounted_superseded rs :
  all_unmounted rs → superseded_unmounted rs.
Proof. intros Ha g r Hg _. by eapply Ha. Qed.

Lemma superseded_start rs b :
  all_unmounted rs → superseded_unmounted (start b rs).
Proof.
  intros Ha g r Hg Hlt. unfold start in *.
  rewrite length_app in Hlt. simpl in Hlt.
  rewrite lookup_app_l in Hg by lia. by eapply Ha.
Qed.

Lemma superseded_settled rs g' :
  superseded_unmounted rs → superseded_unmounted (alter settled g' rs).
Proof.
  intros Hs g r Hg Hlt. rewrite length_alter in Hlt.
  destruct (lookup_settled _ _ _ _ Hg) as (r0 & H0 & -> & _). by eapply Hs.
Qed.

Lemma all_unmounted_settled rs g' :
  all_unmounted rs → all_unmounted (alter settled g' rs).
Proof.
  intros Ha g r Hg.
  destruct (lookup_settled _ _ _ _ Hg) as (r0 & H0 & -> & _). by eapply Ha.
Qed.

Lemma latest_mounted_start rs b : latest_mounted (start b rs).
Proof.
  eexists. unfold start. rewrite length_app. simpl.
  replace (pred (length rs + 1)) with (length rs) by lia.
  rewrite lookup_app_r by lia. rewrite Nat.sub_diag. done.
Qed.

Lemma latest_mounted_settled rs g :
  latest_mounted rs → latest_mounted (alter settled g rs).
Proof.
  intros (r & Hr & Hm). unfold latest_mounted. rewrite length_alter.
  destruct (decide (g = pred (length rs))) as [->|Hne].
  - exists (settled r). by rewrite list_lookup_alter_eq, Hr.
  - exists r. by rewrite list_lookup_alter_ne.
Qed.

End EffectFacts.

(** ** [Home]: the filter and the fetch effect *)

Module HomeFacts.
Import Api Home.

Lemma filter_status_with_status f L :
  List.filter (λ course, String.eqb (course_status course) (filter_string f)) L
  = with_status f L.
Proof.
  induction L as [|c L IH]; simpl; [done|].
  destruct (String.eqb_spec (course_status c) (filter_string f));
    case_decide; try done. by rewrite IH.
Qed.

Lemma with_status_sublist f L : with_status f L `sublist_of` L.
Proof.
  induction L as [|c L IH]; simpl; [constructor|].
  case_decide; by constructor.
Qed.

Lemma elem_of_with_status f L c :
  c ∈ with_status f L ↔ c ∈ L ∧ course_status c = filter_string f.
Proof.
  induction L as [|c' L IH]; simpl.
  - split; [intros H | intros [H _]]; by apply elem_of_nil in H.
  - case_decide as Hc; rewrite ?elem_of_cons, IH; intuition congruence.
Qed.

(** Nothing with the wanted status is left out, and the order is kept:
    every subsequence of [L] made of such courses is a subsequence of
    the result. *)
Lemma with_status_greatest f L R :
  R `sublist_of` L →
  Forall (λ c, course_status c = filter_string f) R →
  R `sublist_of` with_status f L.
Proof.
  induction 1 as [|c R L _ IH|c R L _ IH]; intros HR; simpl.
  - constructor.
  - apply Forall_cons in HR as [Hc HR].
    rewrite decide_True by done. constructor. by apply IH.
  - case_decide; [constructor|]; by apply IH.
Qed.

(** *** The effect runs of a reachable component *)

Lemma home_mount_wf : home_wf mount.
Proof.
  split; simpl.
  - apply superseded_start. by intros g r Hg.
  - done.
  - intros _. apply latest_mounted_start.
Qed.

Lemma home_step_wf c e c' : home_wf c → step c e = Some c' → home_wf c'.
Proof.
  intros [Hs Hg Hl] Hstep. destruct e as [| |g o|f]; simpl in Hstep.
  - destruct (alive c); [|done]. injection Hstep as <-. split; simpl.
    + by apply superseded_start, all_unmounted_cleanup.
    + done.
    + intros _. apply latest_mounted_start.
  - destruct (alive c); [|done]. injection Hstep as <-. split; simpl.
    + by apply all_unmounted_superseded, all_unmounted_cleanup.
    + intros _. by apply all_unmounted_cleanup.
    + done.
  - destruct (runs c !! g) as [r|]; [|done].
    destruct (Effect.pending r); [|done].
    destruct (fetchCourses_resume _ _ _ _) as [v log].
    injection Hstep as <-. split; simpl.
    + by apply superseded_settled.
    + intros Ha. by apply all_unmounted_settled, Hg.
    + intros Ha. by apply latest_mounted_settled, Hl.
  - destruct (alive c) eqn:Ha; [|done]. injection Hstep as <-.
    split; simpl; [done|done|]. intros _. by apply Hl.
Qed.

Lemma home_run_events_wf tr : ∀ c c',
  home_wf c → run_events c tr = Some c' → home_wf c'.
Proof.
  induction tr as [|e tr IH]; intros c c' Hwf Hrun; simpl in Hrun.
  - by injection Hrun as <-.
  - destruct (step c e) as [c1|] eqn:Hstep; [|done].
    eapply IH; [|done]. by eapply home_step_wf.
Qed.

Lemma home_reachable_wf c : reachable c → home_wf c.
Proof. intros [tr Htr]. eapply home_run_events_wf; [apply home_mount_wf|done]. Qed.

(** A promise that settles for a run whose cleanup has been called:
    the continuation returns without touching anything. *)
Lemma home_settle_unmounted c g r o :
  runs c !! g = Some r → Effect.isMounted r = false → Effect.pending r = true →
  ∃ c', step c (Settle g o) = Some c' ∧ view c' = view c ∧
        console c' = console c ∧ requests c' = requests c ∧
        alive c' = alive c ∧ runs c' = alter Effect.settled g (runs c).
Proof.
  intros Hg Hm Hp. simpl. rewrite Hg, Hp.
  unfold fetchCourses_resume. rewrite Hm. destruct o; eauto 10.
Qed.

(** The run that is still mounted: the continuation writes the result. *)
Lemma home_settle_mounted c g r o :
  runs c !! g = Some r → Effect.isMounted r = true → Effect.pending r = true →
  ∃ c', step c (Settle g o) = Some c' ∧
        view c' =
          setLoading false
            match o with
            | Fulfilled data => setCourses data (view c)
            | Rejected err => setError (errorMessage err) (view c)
            end.
Proof.
  intros Hg Hm Hp. simpl. rewrite Hg, Hp.
  unfold fetchCourses_resume. rewrite Hm. destruct o; simpl; eauto.
Qed.

(** Once the component is gone only promises can still settle, and
    none of them changes anything. *)
Lemma home_after_unmount tr : ∀ c c',
  alive c = false → Effect.all_unmounted (runs c) →
  run_events c tr = Some c' →
  view c' = view c ∧ console c' = console c ∧ requests c' = requests c ∧
  alive c' = false ∧ Effect.all_unmounted (runs c').
Proof.
  induction tr as [|e tr IH]; intros c c' Ha Hu Hrun; simpl in Hrun.
  - by injection Hrun as <-.
  - destruct (step c e) as [c1|] eqn:Hstep; [|done].
    assert (view c1 = view c ∧ console c1 = console c ∧
            requests c1 = requests c ∧ alive c1 = false ∧
            Effect.all_unmounted (runs c1)) as (Hv & Hc & Hr & Ha1 & Hu1).
    { destruct e as [| |g o|f]; simpl in Hstep; rewrite ?Ha in Hstep; try done.
      destruct (runs c !! g) as [r|] eqn:Hg; [|done].
      destruct (Effect.pending r) eqn:Hp; [|done].
      unfold fetchCourses_resume in Hstep. rewrite (Hu _ _ Hg) in Hstep.
      destruct o; injection Hstep as <-; simpl;
        split_and!; try done; by apply all_unmounted_settled. }
    destruct (IH c1 c' Ha1 Hu1 Hrun) as (? & ? & ? & ? & ?).
    split_and!; [congruence..|done|done].
Qed.

(** Fetch [a] was issued before fetch [b]; [b] settles, then [a]. *)
Lemma home_late_completion c c1 a b ra oa ob :
  home_wf c → a < b →
  runs c !! a = Some ra → Effect.pending ra = true →
  step c (Settle b ob) = Some c1 →
  ∃ c2, step c1 (Settle a oa) = Some c2 ∧
        view c2 = view c1 ∧ console c2 = console c1 ∧
        (alive c = true → S b = length (runs c) →
         view c2 =
           setLoading false
             match ob with
             | Fulfilled data => setCourses data (view c)
             | Rejected err => setError (errorMessage err) (view c)
             end).
Proof.
  intros Hwf Hab Ha Hpa Hb.
  assert (∃ rb, runs c !! b = Some rb ∧ Effect.pending rb = true) as (rb & Hrb & Hpb).
  { simpl in Hb. destruct (runs c !! b) as [rb|]; [|done].
    destruct (Effect.pending rb) eqn:Hp; [eauto|done]. }
  assert (Effect.isMounted ra = false) as Hma.
  { apply (home_wf_superseded _ Hwf a ra Ha). apply lookup_lt_Some in Hrb. lia. }
  assert (runs c1 = alter Effect.settled b (runs c)) as Hruns.
  { simpl in Hb. rewrite Hrb, Hpb in Hb.
    destruct (fetchCourses_resume _ _ _ _). by injection Hb as <-. }
  destruct (home_settle_unmounted c1 a ra oa) as (c2 & Hs2 & Hv & Hc & _); [|done..|].
  { rewrite Hruns, list_lookup_alter_ne by lia. done. }
  exists c2. split_and!; [done..|]. intros Halive Hlast.
  destruct (home_wf_latest _ Hwf Halive) as (r & Hr & Hm).
  replace (pred (length (runs c))) with b in Hr by lia.
  assert (r = rb) as -> by congruence.
  destruct (home_settle_mounted c b rb ob Hrb Hm Hpb) as (c1' & Hs1 & Hv1).
  congruence.
Qed.

End HomeFacts.

(** ** [CourseDetailPage]: the fetch effect and the phase navigator *)

Module DetailFacts.
Import CourseDetailPage.

Lemma lookup_start rs b g r :
  Effect.start b rs !! g = Some r →
  rs !! g = Some r ∨ r = {| Effect.isMounted := true; Effect.pending := b |}.
Proof.
  unfold Effect.start. intros H.
  apply lookup_app_Some in H as [H|[_ H]]; [by left|right].
  destruct (g - length rs); simpl in H; [by injection H|done].
Qed.

(** *** The effect runs of a reachable component *)

Lemma detail_effect_wf c :
  alive c = true → Effect.all_unmounted (runs c) → detail_wf (effect c).
Proof.
  intros Ha Hu. unfold effect, fetchCourse_begin.
  destruct (JS.truthy (id c)); simpl; split; simpl;
    try (by apply superseded_start);
    try (intros _; apply latest_mounted_start);
    try congruence;
    intros g r Hg Hm Hp; apply lookup_start in Hg as [Hg| ->];
    try (rewrite (Hu _ _ Hg) in Hm); done.
Qed.

Lemma detail_mount_wf id0 : detail_wf (mount id0).
Proof. apply detail_effect_wf; [done|]. by intros g r Hg. Qed.

Lemma detail_step_wf c e c' : detail_wf c → step c e = Some c' → detail_wf c'.
Proof.
  intros [Hs Hg Hl Hload] Hstep. destruct e as [id'| |g o|i]; simpl in Hstep.
  - destruct (alive c) eqn:Ha; [|done]. case_decide.
    + injection Hstep as <-.
      split; [done|intros; congruence|by intros _; apply Hl|done].
    + injection Hstep as <-. apply detail_effect_wf; [done|].
      by apply all_unmounted_cleanup.
  - destruct (alive c); [|done]. injection Hstep as <-. split; simpl.
    + by apply all_unmounted_superseded, all_unmounted_cleanup.
    + intros _. by apply all_unmounted_cleanup.
    + done.
    + intros g r Hr Hm. by rewrite (all_unmounted_cleanup _ Hs _ _ Hr) in Hm.
  - destruct (runs c !! g) as [r|] eqn:Hr; [|done].
    destruct (Effect.pending r) eqn:Hp; [|done].
    destruct (fetchCourse_resume _ _ _ _) as [v log] eqn:Hres.
    injection Hstep as <-. split; simpl.
    + by apply superseded_settled.
    + intros Ha. by apply all_unmounted_settled, Hg.
    + intros Ha. by apply latest_mounted_settled, Hl.
    + intros g1 r1 Hr1 Hm1 Hp1.
      destruct (lookup_settled _ _ _ _ Hr1) as (r0 & Hr0 & Hmeq & Hpend).
      destruct (Hpend Hp1) as [Hp0 Hne]. rewrite Hmeq in Hm1.
      (* [g1] is mounted, so it is the latest run and [g] is another
         one: it was cleaned up and its continuation left the state. *)
      assert (Effect.isMounted r = false) as Hm.
      { destruct (Effect.isMounted r) eqn:Hm; [|done].
        destruct (decide (S g < length (runs c))) as [Hlt|Hge];
          [by rewrite (Hs _ _ Hr Hlt) in Hm|].
        destruct (decide (S g1 < length (runs c))) as [Hlt1|Hge1];
          [by rewrite (Hs _ _ Hr0 Hlt1) in Hm1|].
        apply lookup_lt_Some in Hr, Hr0. lia. }
      unfold fetchCourse_resume in Hres. rewrite Hm in Hres.
      destruct o; injection Hres as <- <-; by eapply Hload.
  - destruct (alive c) eqn:Ha; [|done]. injection Hstep as <-.
    split; simpl; [done|done|by intros _; apply Hl|].
    intros g r Hr Hm Hp. destruct (Hload _ _ Hr Hm Hp) as [Hld He].
    unfold select, phase_headers, render. rewrite Hld.
    destruct (i <? 0)%Z; simpl; by rewrite ?Hld, ?He.
Qed.

Lemma detail_run_events_wf tr : ∀ c c',
  detail_wf c → run_events c tr = Some c' → detail_wf c'.
Proof.
  induction tr as [|e tr IH]; intros c c' Hwf Hrun; simpl in Hrun.
  - by injection Hrun as <-.
  - destruct (step c e) as [c1|] eqn:Hstep; [|done].
    eapply IH; [|done]. by eapply detail_step_wf.
Qed.

Lemma detail_reachable_wf c : reachable c → detail_wf c.
Proof.
  intros (id0 & tr & Htr).
  eapply detail_run_events_wf; [apply detail_mount_wf|done].
Qed.

(** A promise that settles for a run whose cleanup has been called:
    both [if (!isMounted) return] and the guarded [finally] leave the
    state and the console as they are. *)
Lemma detail_settle_unmounted c g r o :
  runs c !! g = Some r → Effect.isMounted r = false → Effect.pending r = true →
  ∃ c', step c (Settle g o) = Some c' ∧ view c' = view c ∧
        console c' = console c ∧ requests c' = requests c ∧
        alive c' = alive c ∧ id c' = id c ∧
        runs c' = alter Effect.settled g (runs c).
Proof.
  intros Hg Hm Hp. simpl. rewrite Hg, Hp.
  unfold fetchCourse_resume. rewrite Hm. destruct o; simpl; eauto 10.
Qed.

(** The run that is still mounted: the continuation writes the result. *)
Lemma detail_settle_mounted c g r o :
  runs c !! g = Some r → Effect.isMounted r = true → Effect.pending r = true →
  ∃ c', step c (Settle g o) = Some c' ∧
        view c' =
          setLoading false
            match o with
            | Fulfilled data => setCourse data (view c)
            | Rejected err => setError (Some (errorMessage err)) (view c)
            end.
Proof.
  intros Hg Hm Hp. simpl. rewrite Hg, Hp.
  unfold fetchCourse_resume. rewrite Hm. destruct o; simpl; eauto.
Qed.

Lemma detail_after_unmount tr : ∀ c c',
  alive c = false → Effect.all_unmounted (runs c) →
  run_events c tr = Some c' →
  view c' = view c ∧ console c' = console c ∧ requests c' = requests c ∧
  alive c' = false ∧ Effect.all_unmounted (runs c').
Proof.
  induction tr as [|e tr IH]; intros c c' Ha Hu Hrun; simpl in Hrun.
  - by injection Hrun as <-.
  - destruct (step c e) as [c1|] eqn:Hstep; [|done].
    assert (view c1 = view c ∧ console c1 = console c ∧
            requests c1 = requests c ∧ alive c1 = false ∧
            Effect.all_unmounted (runs c1)) as (Hv & Hc & Hr & Ha1 & Hu1).
    { destruct e as [id'| |g o|i]; simpl in Hstep; rewrite ?Ha in Hstep; try done.
      destruct (runs c !! g) as [r|] eqn:Hg; [|done].
      destruct (Effect.pending r) eqn:Hp; [|done].
      unfold fetchCourse_resume in Hstep. rewrite (Hu _ _ Hg) in Hstep.
      destruct o; injection Hstep as <-; simpl;
        split_and!; try done; by apply all_unmounted_settled. }
    destruct (IH c1 c' Ha1 Hu1 Hrun) as (? & ? & ? & ? & ?).
    split_and!; [congruence..|done|done].
Qed.

(** *** The phase navigator *)

Lemma phase_headers_lookup v i h :
  phase_headers v !! i = Some h →
  h = setActivePhase i ∧ i < phaseCount v ∧
  loading v = false ∧ activePhase v < phaseCount v.
Proof.
  unfold phase_headers, render, phaseCount.
  destruct (loading v); [done|].
  destruct (JS.truthy (error v)); [done|].
  destruct (course v) as [c|] eqn:Hc; [|done].
  generalize (syllabusPhases (Some c)). intros phases.
  destruct (Nat.ltb 0 (length phases)); [|done].
  destruct (phases !! activePhase v) as [phase|] eqn:Hph; [|done].
  simpl. rewrite list_lookup_imap.
  destruct (phases !! i) eqn:Hi; [|done].
  intros [= <-]. apply lookup_lt_Some in Hph, Hi. by split_and!.
Qed.

Lemma phase_headers_shown v c :
  loading v = false → JS.truthy (error v) = false → course v = Some c →
  activePhase v < phaseCount v →
  phase_headers v = imap (λ i _, setActivePhase i) (syllabusPhases (course v)).
Proof.
  unfold phase_headers, render, phaseCount. intros -> -> ->.
  generalize (syllabusPhases (Some c)). intros phases Hlt.
  destruct (Nat.ltb_spec 0 (length phases)); [|lia].
  apply lookup_lt_is_Some_2 in Hlt as [phase ->]. done.
Qed.

(** A request for a header that is on screen sets the index. *)
Lemma select_in_range v c (i : Z) :
  loading v = false → JS.truthy (error v) = false → course v = Some c →
  activePhase v < phaseCount v →
  (0 ≤ i < Z.of_nat (phaseCount v))%Z →
  select i v = setActivePhase (Z.to_nat i) v.
Proof.
  intros Hl He Hc Hlt Hi. unfold select.
  destruct (Z.ltb_spec i 0); [lia|].
  rewrite (phase_headers_shown v c) by done. rewrite list_lookup_imap.
  destruct (lookup_lt_is_Some_2 (syllabusPhases (course v)) (Z.to_nat i))
    as [phase ->]; [unfold phaseCount in Hi; lia|done].
Qed.

(** There is no header for any other index: the request finds no
    handler and the state stays as it is. *)
Lemma select_out_of_range v (i : Z) :
  ¬ (0 ≤ i < Z.of_nat (phaseCount v))%Z → select i v = v.
Proof.
  intros Hi. unfold select. destruct (Z.ltb_spec i 0); [done|].
  destruct (phase_headers v !! Z.to_nat i) as [h|] eqn:Hh; [|done].
  apply phase_headers_lookup in Hh as (_ & Hlt & _). lia.
Qed.

Lemma select_cases v (i : Z) :
  select i v = v ∨
  (select i v = setActivePhase (Z.to_nat i) v ∧
   Z.to_nat i < phaseCount v ∧ loading v = false).
Proof.
  unfold select. destruct (i <? 0)%Z; [by left|].
  destruct (phase_headers v !! Z.to_nat i) as [h|] eqn:Hh; [|by left].
  apply phase_headers_lookup in Hh as (-> & Hlt & Hl & _). by right.
Qed.

Lemma mount_phase_ok id0 : phase_ok (mount id0).
Proof.
  left. unfold mount, effect, fetchCourse_begin. simpl.
  by destruct (JS.truthy id0).
Qed.

Lemma step_phase_ok c e c' :
  detail_wf c → phase_ok c → is_navigation e = false →
  step c e = Some c' → phase_ok c'.
Proof.
  intros Hwf Hok Hnav Hstep.
  destruct e as [id'| |g o|i]; [done|..]; simpl in Hstep.
  - destruct (alive c); [|done]. injection Hstep as <-.
    destruct Hok as [H0|[Hlt Hset]]; [by left|right]. split; [done|].
    intros g r Hr Hm. simpl in Hr.
    by rewrite (all_unmounted_cleanup _ (detail_wf_superseded _ Hwf) _ _ Hr) in Hm.
  - destruct (runs c !! g) as [r|] eqn:Hr; [|done].
    destruct (Effect.pending r) eqn:Hp; [|done].
    destruct (fetchCourse_resume _ _ _ _) as [v log] eqn:Hres.
    injection Hstep as <-. unfold phase_ok. simpl.
    unfold fetchCourse_resume in Hres.
    destruct (Effect.isMounted r) eqn:Hm.
    + destruct Hok as [H0|[_ Hset]]; [|by rewrite (Hset _ _ Hr Hm) in Hp].
      left. destruct o; by injection Hres as <- <-.
    + assert (v = view c) as -> by (destruct o; by injection Hres as <- <-).
      destruct Hok as [H0|[Hlt Hset]]; [by left|right]. split; [done|].
      intros g1 r1 Hr1 Hm1.
      destruct (lookup_settled _ _ _ _ Hr1) as (r0 & Hr0 & Hmeq & Hpend).
      destruct (Effect.pending r1) eqn:Hp1; [|done].
      destruct (Hpend eq_refl) as [Hp0 _]. rewrite Hmeq in Hm1.
      by rewrite (Hset _ _ Hr0 Hm1) in Hp0.
  - destruct (alive c); [|done]. injection Hstep as <-.
    unfold phase_ok. simpl.
    destruct (select_cases (view c) i) as [->|(-> & Hlt & Hl)]; [done|].
    right. split; [done|]. intros g r Hr Hm.
    destruct (Effect.pending r) eqn:Hp; [|done].
    destruct (detail_wf_loading _ Hwf _ _ Hr Hm Hp) as [Hld _]. congruence.
Qed.

Lemma run_events_phase_ok tr : ∀ c c',
  detail_wf c → phase_ok c → forallb (λ e, negb (is_navigation e)) tr = true →
  run_events c tr = Some c' → phase_ok c'.
Proof.
  induction tr as [|e tr IH]; intros c c' Hwf Hok Hnav Hrun; simpl in *.
  - by injection Hrun as <-.
  - apply andb_prop in Hnav as [He Hnav]. apply negb_true_iff in He.
    destruct (step c e) as [c1|] eqn:Hstep; [|done].
    eapply (IH c1); [by eapply detail_step_wf|by eapply step_phase_ok|done..].
Qed.

(** Fetch [a] was issued before fetch [b]; [b] settles, then [a]. *)
Lemma detail_late_completion c c1 a b ra oa ob :
  detail_wf c → a < b →
  runs c !! a = Some ra → Effect.pending ra = true →
  step c (Settle b ob) = Some c1 →
  ∃ c2, step c1 (Settle a oa) = Some c2 ∧
        view c2 = view c1 ∧ console c2 = console c1 ∧
        (alive c = true → S b = length (runs c) →
         view c2 =
           setLoading false
             match ob with
             | Fulfilled data => setCourse data (view c)
             | Rejected err => setError (Some (errorMessage err)) (view c)
             end).
Proof.
  intros Hwf Hab Ha Hpa Hb.
  assert (∃ rb, runs c !! b = Some rb ∧ Effect.pending rb = true) as (rb & Hrb & Hpb).
  { simpl in Hb. destruct (runs c !! b) as [rb|]; [|done].
    destruct (Effect.pending rb) eqn:Hp; [eauto|done]. }
  assert (Effect.isMounted ra = false) as Hma.
  { apply (detail_wf_superseded _ Hwf a ra Ha). apply lookup_lt_Some in Hrb. lia. }
  assert (runs c1 = alter Effect.settled b (runs c)) as Hruns.
  { simpl in Hb. rewrite Hrb, Hpb in Hb.
    destruct (fetchCourse_resume _ _ _ _). by injection Hb as <-. }
  destruct (detail_settle_unmounted c1 a ra oa) as (c2 & Hs2 & Hv & Hc & _); [|done..|].
  { rewrite Hruns, list_lookup_alter_ne by lia. done. }
  exists c2. split_and!; [done..|]. intros Halive Hlast.
  destruct (detail_wf_latest _ Hwf Halive) as (r & Hr & Hm).
  replace (pred (length (runs c))) with b in Hr by lia.
  assert (r = rb) as -> by congruence.
  destruct (detail_settle_mounted c b rb ob Hrb Hm Hpb) as (c1' & Hs1 & Hv1).
  congruence.
Qed.

(** *** What is on screen *)

Lemma render_course_screen v page :
  render v = CourseScreen page →
  loading v = false ∧ JS.truthy (error v) = false ∧
  (∃ c, course v = Some c) ∧
  (0 < phaseCount v → activePhase v < phaseCount v).
Proof.
  unfold render, phaseCount.
  destruct (loading v); [done|].
  destruct (JS.truthy (error v)); [done|].
  destruct (course v) as [c|]; [|done].
  generalize (syllabusPhases (Some c)). intros phases.
  destruct (Nat.ltb_spec 0 (length phases)) as [Hpos|Hzero].
  - destruct (phases !! activePhase v) as [phase|] eqn:Hph; [|done].
    intros _. apply lookup_lt_Some in Hph. eauto 10.
  - intros _. split_and!; eauto. lia.
Qed.

Lemma render_type_error v :
  render v = RenderTypeError →
  0 < phaseCount v ∧ phaseCount v ≤ activePhase v.
Proof.
  unfold render, phaseCount.
  destruct (loading v); [done|].
  destruct (JS.truthy (error v)); [done|].
  destruct (course v) as [c|]; [|done].
  generalize (syllabusPhases (Some c)). intros phases.
  destruct (Nat.ltb_spec 0 (length phases)) as [Hpos|Hzero]; [|done].
  destruct (phases !! activePhase v) as [phase|] eqn:Hph; [done|].
  intros _. apply lookup_ge_None in Hph. done.
Qed.

End DetailFacts.

(** ** [Math.round] and the sign of the discount *)

Module FloatFacts.
Import JS.

Lemma not_finite_is_finite x :
  sf_not_finite (Prim2SF x) → PrimFloat.is_finite x = false.
Proof.
  intros H. unfold PrimFloat.is_finite, PrimFloat.is_nan, PrimFloat.is_infinity.
  rewrite !FloatAxioms.eqb_spec, FloatAxioms.abs_spec.
  destruct (Prim2SF x) as [s|[]| |s m e]; done || reflexivity.
Qed.

(** [Math.round] on the values its definition singles out: ties go up,
    the largest double below one half goes to 0, and a negative
    argument above -0.5 gives -0. *)
Example Math_round_samples :
  Math_round 2.5%float = 3%float ∧ Math_round (-2.5)%float = (-2)%float ∧
  Math_round 0x1.fffffffffffffp-2%float = 0%float ∧
  Math_round (-0.5)%float = (-0)%float ∧ Math_round 24.5%float = 25%float ∧
  Math_round 0x1p70%float = 0x1p70%float ∧ Math_round nan = nan ∧
  Math_round neg_infinity = neg_infinity.
Proof. by split_and!. Qed.

Lemma Math_round_not_finite x :
  sf_not_finite (Prim2SF x) → JS.Math_round x = x.
Proof. unfold JS.Math_round. by destruct (Prim2SF x). Qed.

Lemma binary_round_aux_sign s m e l :
  s = false → sf_sign_clear (binary_round_aux prec emax s m e l).
Proof.
  intros ->. unfold binary_round_aux.
  destruct (shr_fexp _ _ _ _ _) as [mrs e1].
  destruct (shr_fexp _ _ _ _ _) as [mrs2 e2].
  destruct (shr_m mrs2); [done| |done].
  by destruct (Z.leb _ _).
Qed.

Lemma binary_normalize_sign m e :
  (0 ≤ m)%Z → sf_sign_clear (binary_normalize prec emax m e false).
Proof.
  intros Hm. destruct m as [|p|p]; [done| |lia].
  unfold binary_normalize, binary_round.
  destruct (shl_align _ _ _) as [mz ez]. by apply binary_round_aux_sign.
Qed.

Lemma SFdiv_sign x y :
  sf_sign_clear x → sf_sign_clear y → sf_sign_clear (SFdiv prec emax x y).
Proof.
  destruct x as [sx|sx| |sx mx ex], y as [sy|sy| |sy my ey];
    simpl; intros; subst; try done.
  destruct (SFdiv_core_binary _ _ _ _ _ _) as [[mz ez] lz].
  by apply binary_round_aux_sign.
Qed.

Lemma SFmul_sign x y :
  sf_sign_clear x → sf_sign_clear y → sf_sign_clear (SFmul prec emax x y).
Proof.
  destruct x as [sx|sx| |sx mx ex], y as [sy|sy| |sy my ey];
    simpl; intros; subst; try done.
  by apply binary_round_aux_sign.
Qed.


Lemma sign_clear_not_negative x :
  sf_sign_clear (Prim2SF x) → (x <? 0)%float = false.
Proof.
  rewrite FloatAxioms.ltb_spec.
  change (Prim2SF 0) with (S754_zero false).
  destruct (Prim2SF x) as [s|s| |s m e]; simpl; intros; by subst.
Qed.

Lemma of_Z_sign r : (0 ≤ r)%Z → sf_sign_clear (Prim2SF (JS.of_Z r)).
Proof.
  intros Hr. unfold JS.of_Z. destruct (Z.ltb_spec r 0); [lia|].
  rewrite FloatAxioms.of_uint63_spec. apply binary_normalize_sign.
  apply Uint63.to_Z_bounded.
Qed.

Lemma Math_round_sign x :
  sf_sign_clear (Prim2SF x) → sf_sign_clear (Prim2SF (JS.Math_round x)).
Proof.
  unfold JS.Math_round. destruct (Prim2SF x) as [s|s| |s m e] eqn:Hx;
    try (by rewrite Hx).
  simpl. intros ->. destruct (Z.leb_spec 0 e); [by rewrite Hx|].
  destruct (Z.eqb_spec ((2 * Z.pos m + 2 ^ (- e)) `div` 2 ^ (1 - e)) 0);
    [done|].
  apply of_Z_sign. apply Z.div_pos; [|apply Z.pow_pos_nonneg; lia].
  assert (0 ≤ 2 ^ (- e))%Z by (apply Z.pow_nonneg; lia). lia.
Qed.

(** *** The sign of [originalPrice - discountedPrice] *)

Lemma digits2_pos_bounds m :
  (2 ^ (Z.pos (digits2_pos m) - 1) ≤ Z.pos m < 2 ^ Z.pos (digits2_pos m))%Z.
Proof.
  induction m as [p IH|p IH|]; simpl digits2_pos; [| |simpl; lia];
    rewrite Pos2Z.inj_succ;
    replace (Z.succ (Z.pos (digits2_pos p)) - 1)%Z
      with (Z.succ (Z.pos (digits2_pos p) - 1)) by lia;
    rewrite !Z.pow_succ_r by lia; lia.
Qed.

Lemma iter_xO_double m d : (2 * Z.pos m ≤ Z.pos (Pos.iter xO m d))%Z.
Proof.
  induction d as [|d IH] using Pos.peano_ind; [simpl; lia|].
  rewrite Pos.iter_succ. lia.
Qed.

(** The mantissa of a valid binary64 value has at most 53 bits, and
    exactly 53 above the least exponent. *)
Lemma bounded_mantissa m e :
  bounded prec emax m e = true →
  (Z.pos m < 2 ^ 53 ∧ (-1074 ≤ e) ∧ (-1074 < e → 2 ^ 52 ≤ Z.pos m))%Z.
Proof.
  unfold bounded, canonical_mantissa, fexp, emin, prec, emax.
  intros [Hc _]%andb_prop. apply Z.eqb_eq in Hc.
  pose proof (digits2_pos_bounds m) as [Hlo Hhi].
  assert (Z.pos (digits2_pos m) ≤ 53)%Z as Hd by lia.
  split_and!; [|lia|].
  - eapply Z.lt_le_trans; [exact Hhi|]. by apply Z.pow_le_mono_r.
  - intros He. assert (Z.pos (digits2_pos m) = 53)%Z as Heq by lia.
    by rewrite Heq in Hlo.
Qed.

Lemma SFsub_sign O D :
  valid_binary O = true → valid_binary D = true →
  SFleb (S754_zero false) D = true → SFleb D O = true →
  (∀ s, O ≠ S754_zero s) →
  sf_sign_clear O ∧ sf_sign_clear (SFsub prec emax O D).
Proof.
  intros HO HD H0 Hle Hnz.
  destruct O as [so|so| |so mx ex]; [by destruct (Hnz so)|..];
    destruct D as [sd|sd| |sd my ey]; try done;
    try (destruct so, sd; done).
  destruct sd; [done|]. destruct so; [done|]. split; [done|].
  unfold SFsub. apply binary_normalize_sign. simpl cond_Zopp.
  unfold SFleb, SFcompare in Hle. simpl in HO, HD.
  apply bounded_mantissa in HO as (HxHi & HxE & HxLo).
  apply bounded_mantissa in HD as (HyHi & HyE & HyLo).
  unfold shl_align.
  destruct (Z.compare_spec ey ex) as [->|Hlt|Hgt]; [| |done].
  - rewrite Z.min_id, Z.sub_diag. simpl.
    rewrite Pos.compare_cont_spec in Hle. simpl in Hle.
    destruct (Pos.compare_spec my mx); [lia|lia|done].
  - rewrite Z.min_r by lia. rewrite Z.sub_diag.
    destruct (ey - ex)%Z as [|p|p] eqn:Hd; [lia|lia|]. simpl.
    pose proof (iter_xO_double mx p). lia.
Qed.


(** *** [discountPercent] on a loaded course *)

Import CourseDetailPage.

Lemma Prim2SF_100 : ∃ m e, Prim2SF 100 = S754_finite false m e.
Proof. vm_compute. eauto. Qed.

Lemma percent_spec (o d : float) :
  Prim2SF (((o - d) / o) * 100)%float
  = SFmul prec emax
      (SFdiv prec emax (SFsub prec emax (Prim2SF o) (Prim2SF d)) (Prim2SF o))
      (Prim2SF 100).
Proof.
  by rewrite FloatAxioms.mul_spec, FloatAxioms.div_spec, FloatAxioms.sub_spec.
Qed.

Lemma zero_or_nan (o : float) :
  PrimFloat.is_zero o = true ∨ PrimFloat.is_nan o = true →
  (∃ s, Prim2SF o = S754_zero s) ∨ Prim2SF o = S754_nan.
Proof.
  unfold PrimFloat.is_zero, PrimFloat.is_nan.
  rewrite !FloatAxioms.eqb_spec.
  change (Prim2SF PrimFloat.zero) with (S754_zero false).
  destruct (Prim2SF o) as [so|so| |so mo eo]; [by eauto| |by eauto|].
  - by intros [?|?]; destruct so.
  - unfold SFeqb. simpl.
    rewrite Z.compare_refl, Pos.compare_cont_refl.
    by intros [?|?]; destruct so.
Qed.

(** A zero or missing [originalPrice]: the quotient is 0/0, x/0 or
    NaN, and nothing brings it back to a finite value. *)
Lemma percent_zero_price (o d : float) :
  PrimFloat.is_zero o = true ∨ PrimFloat.is_nan o = true →
  PrimFloat.is_finite (JS.Math_round (((o - d) / o) * 100)%float) = false.
Proof.
  intros Ho. apply not_finite_is_finite.
  assert (sf_not_finite (Prim2SF (((o - d) / o) * 100)%float)) as Hnf.
  { rewrite percent_spec. destruct Prim2SF_100 as (m & e & ->).
    destruct (zero_or_nan o Ho) as [[so ->]| ->];
      destruct (Prim2SF d) as [sd|sd| |sd md ed]; try done;
      by destruct so, sd. }
  by rewrite Math_round_not_finite.
Qed.

Lemma percent_not_negative (o d : float) :
  (0 <=? d)%float = true → (d <=? o)%float = true →
  (JS.Math_round (((o - d) / o) * 100) <? 0)%float = false.
Proof.
  rewrite !FloatAxioms.leb_spec. change (Prim2SF 0) with (S754_zero false).
  intros H0 Hle. apply sign_clear_not_negative.
  apply Math_round_sign. rewrite percent_spec.
  pose proof (FloatAxioms.Prim2SF_valid o) as Hvo.
  pose proof (FloatAxioms.Prim2SF_valid d) as Hvd.
  destruct (Prim2SF o) as [so|so| |so mo eo] eqn:Ho.
  - (* 0/0 *)
    destruct (Prim2SF d) as [sd|sd| |sd md ed]; try done;
      [by destruct so, sd|by destruct sd|by destruct sd].
  - rewrite <- Ho in *.
    destruct (SFsub_sign _ _ Hvo Hvd H0 Hle) as [HO HN]; [by rewrite Ho|].
    apply SFmul_sign; [by apply SFdiv_sign|].
    by destruct Prim2SF_100 as (m100 & e100 & ->).
  - by destruct (Prim2SF d).
  - rewrite <- Ho in *.
    destruct (SFsub_sign _ _ Hvo Hvd H0 Hle) as [HO HN]; [by rewrite Ho|].
    apply SFmul_sign; [by apply SFdiv_sign|].
    by destruct Prim2SF_100 as (m100 & e100 & ->).
Qed.

End FloatFacts.

(** * The statements of the specification *)

Module D := CourseDetailPage.
Module H := Home.

(** C1.  On either page, let fetch [a] be issued before fetch [b] and
    let [b] settle first.  When [a] settles afterwards, whatever its
    result, the visible state and the console stay as [b] left them; and
    when [b] is the latest fetch of a mounted component, that state is
    the one [b]'s own result produces. *)
Theorem late_completion_is_discarded :
  (∀ (c c1 : D.component) a b ra oa ob,
     D.reachable c → a < b →
     D.runs c !! a = Some ra → Effect.pending ra = true →
     D.step c (D.Settle b ob) = Some c1 →
     ∃ c2, D.step c1 (D.Settle a oa) = Some c2 ∧
           D.view c2 = D.view c1 ∧ D.console c2 = D.console c1 ∧
           (D.alive c = true → S b = length (D.runs c) →
            D.view c2 =
              D.setLoading false
                match ob with
                | D.Fulfilled data => D.setCourse data (D.view c)
                | D.Rejected err =>
                    D.setError (Some (D.errorMessage err)) (D.view c)
                end))
  ∧
  (∀ (c c1 : H.component) a b ra oa ob,
     H.reachable c → a < b →
     H.runs c !! a = Some ra → Effect.pending ra = true →
     H.step c (H.Settle b ob) = Some c1 →
     ∃ c2, H.step c1 (H.Settle a oa) = Some c2 ∧
           H.view c2 = H.view c1 ∧ H.console c2 = H.console c1 ∧
           (H.alive c = true → S b = length (H.runs c) →
            H.view c2 =
              H.setLoading false
                match ob with
                | H.Fulfilled data => H.setCourses data (H.view c)
                | H.Rejected err => H.setError (H.errorMessage err) (H.view c)
                end)).
Proof.
  split; intros c c1 a b ra oa ob Hreach.
  - apply DetailFacts.detail_late_completion.
    by apply DetailFacts.detail_reachable_wf.
  - apply HomeFacts.home_late_completion.
    by apply HomeFacts.home_reachable_wf.
Qed.

Lemma late_completion_is_discarded_witness :
  (∃ c1 c2,
     D.step Samples.two_loads (D.Settle 1 (D.Fulfilled (Some Samples.courseB))) = Some c1 ∧
     D.step c1 (D.Settle 0 (D.Fulfilled (Some Samples.courseA))) = Some c2 ∧
     D.course (D.view c2) = Some Samples.courseB)
  ∧
  (∃ c1 c2,
     H.step Samples.two_fetches (H.Settle 1 (H.Fulfilled (Some Samples.catalog))) = Some c1 ∧
     H.step c1 (H.Settle 0 (H.Rejected JS.NotAnError)) = Some c2 ∧
     H.courses (H.view c2) = Some Samples.catalog ∧ H.error (H.view c2) = "").
Proof.
  destruct late_completion_is_discarded as [Hdetail Hhome]. split.
  - destruct (Hdetail Samples.two_loads Samples.b_first 0 1
                {| Effect.isMounted := false; Effect.pending := true |}
                (D.Fulfilled (Some Samples.courseA))
                (D.Fulfilled (Some Samples.courseB)))
      as (c2 & Hstep & Hview & _ & Hresult);
      [by exists (Some "a"), [D.Navigate (Some "b")]
      |lia|reflexivity|reflexivity|reflexivity|].
    exists Samples.b_first, c2. split_and!; [reflexivity|exact Hstep|].
    rewrite Hresult by reflexivity. reflexivity.
  - destruct (Hhome Samples.two_fetches Samples.catalog_first 0 1
                {| Effect.isMounted := false; Effect.pending := true |}
                (H.Rejected JS.NotAnError)
                (H.Fulfilled (Some Samples.catalog)))
      as (c2 & Hstep & Hview & _ & Hresult);
      [by exists [H.Rerun]|lia|reflexivity|reflexivity|reflexivity|].
    exists Samples.catalog_first, c2.
    split_and!; [reflexivity|exact Hstep|..];
      rewrite Hresult by reflexivity; reflexivity.
Defined.

(** C2.  [filteredCourses] returns the whole list for [All]; for
    [Online], [Offline] and [Hybrid] it is the subsequence of the list
    with that status, in the order of the list: it is a subsequence, it
    holds the courses of that status and no others, and every
    subsequence made of such courses is a subsequence of it.  When the
    state holds no array the result is empty. *)
Theorem filteredCourses_is_status_subsequence (L : list Api.Course) :
  H.filteredCourses (Some L) H.All = L
  ∧ (∀ f, f ≠ H.All →
       H.filteredCourses (Some L) f = H.with_status f L
       ∧ H.filteredCourses (Some L) f `sublist_of` L
       ∧ (∀ c, c ∈ H.filteredCourses (Some L) f ↔
               c ∈ L ∧ Api.course_status c = H.filter_string f)
       ∧ (∀ R, R `sublist_of` L →
               Forall (λ c, Api.course_status c = H.filter_string f) R →
               R `sublist_of` H.filteredCourses (Some L) f))
  ∧ (∀ f, H.filteredCourses None f = []).
Proof.
  split_and!; [done| |done].
  intros f Hf.
  assert (H.filteredCourses (Some L) f = H.with_status f L) as ->.
  { destruct f; [done|..]; apply HomeFacts.filter_status_with_status. }
  split_and!; [done|..].
  - apply HomeFacts.with_status_sublist.
  - apply HomeFacts.elem_of_with_status.
  - apply HomeFacts.with_status_greatest.
Qed.

Lemma filteredCourses_is_status_subsequence_witness :
  H.filteredCourses (Some Samples.catalog) H.Online
  = [Samples.entry "c2" "Online"; Samples.entry "c5" "Online"].
Proof.
  destruct (filteredCourses_is_status_subsequence Samples.catalog) as (_ & Hf & _).
  destruct (Hf H.Online) as (-> & _); [discriminate|reflexivity].
Defined.

(** C3.  A promise that settles after its consumer was torn down (the
    component is unmounted, or a later run of the effect has replaced
    the run that awaits it) is always accepted and changes neither the
    visible state nor the console nor the gateway calls; after an
    unmount no sequence of events changes them.  On both pages. *)
Theorem completion_after_teardown_is_silent :
  (∀ (c : D.component) g r o,
     D.reachable c → D.runs c !! g = Some r → Effect.pending r = true →
     D.alive c = false ∨ S g < length (D.runs c) →
     ∃ c', D.step c (D.Settle g o) = Some c' ∧ D.view c' = D.view c ∧
           D.console c' = D.console c ∧ D.requests c' = D.requests c)
  ∧
  (∀ (c c0 c1 : D.component) tr,
     D.reachable c → D.step c D.Unmount = Some c0 →
     D.run_events c0 tr = Some c1 →
     D.view c1 = D.view c0 ∧ D.console c1 = D.console c0 ∧
     D.requests c1 = D.requests c0)
  ∧
  (∀ (c : H.component) g r o,
     H.reachable c → H.runs c !! g = Some r → Effect.pending r = true →
     H.alive c = false ∨ S g < length (H.runs c) →
     ∃ c', H.step c (H.Settle g o) = Some c' ∧ H.view c' = H.view c ∧
           H.console c' = H.console c ∧ H.requests c' = H.requests c)
  ∧
  (∀ (c c0 c1 : H.component) tr,
     H.reachable c → H.step c H.Unmount = Some c0 →
     H.run_events c0 tr = Some c1 →
     H.view c1 = H.view c0 ∧ H.console c1 = H.console c0 ∧
     H.requests c1 = H.requests c0).
Proof.
  split_and!.
  - intros c g r o Hreach%DetailFacts.detail_reachable_wf Hr Hp Htorn.
    destruct (DetailFacts.detail_settle_unmounted c g r o) as (c' & ? & ? & ? & ? & _);
      [done| |done|by eauto].
    destruct Htorn as [Hgone|Hlater].
    + by eapply D.detail_wf_gone.
    + by eapply D.detail_wf_superseded.
  - intros c c0 c1 tr Hreach%DetailFacts.detail_reachable_wf Hun Hrun.
    assert (D.alive c0 = false ∧ D.detail_wf c0) as [Ha0 Hwf0].
    { split; [|by eapply DetailFacts.detail_step_wf].
      simpl in Hun. destruct (D.alive c); [|done]. by injection Hun as <-. }
    destruct (DetailFacts.detail_after_unmount tr c0 c1 Ha0) as (? & ? & ? & _);
      [by apply D.detail_wf_gone|done|done].
  - intros c g r o Hreach%HomeFacts.home_reachable_wf Hr Hp Htorn.
    destruct (HomeFacts.home_settle_unmounted c g r o) as (c' & ? & ? & ? & ? & _);
      [done| |done|by eauto].
    destruct Htorn as [Hgone|Hlater].
    + by eapply H.home_wf_gone.
    + by eapply H.home_wf_superseded.
  - intros c c0 c1 tr Hreach%HomeFacts.home_reachable_wf Hun Hrun.
    assert (H.alive c0 = false ∧ H.home_wf c0) as [Ha0 Hwf0].
    { split; [|by eapply HomeFacts.home_step_wf].
      simpl in Hun. destruct (H.alive c); [|done]. by injection Hun as <-. }
    destruct (HomeFacts.home_after_unmount tr c0 c1 Ha0) as (? & ? & ? & _);
      [by apply H.home_wf_gone|done|done].
Qed.

Lemma completion_after_teardown_is_silent_witness :
  ∃ c',
    D.step Samples.two_loads (D.Settle 0 (D.Rejected (JS.ErrorObject "timeout")))
    = Some c' ∧
    D.view c' = D.view Samples.two_loads ∧ D.console c' = [].
Proof.
  destruct completion_after_teardown_is_silent as (Hdetail & _).
  destruct (Hdetail Samples.two_loads 0
              {| Effect.isMounted := false; Effect.pending := true |}
              (D.Rejected (JS.ErrorObject "timeout")))
    as (c' & Hstep & Hview & Hconsole & _);
    [by exists (Some "a"), [D.Navigate (Some "b")]
    |reflexivity|reflexivity|right; simpl; lia|].
  exists c'. split_and!; [exact Hstep|exact Hview|exact Hconsole].
Defined.

(** C4, as the code has it.  For a loaded course [discountPercent] is
    [Math.round(((originalPrice - discountedPrice) / originalPrice) * 100)]
    in binary64 arithmetic; 1000 and 750 give 25.  Nothing clamps a zero
    or missing [originalPrice]: the division raises nothing and the
    result is NaN or an infinity, never 0, and NaN when the discounted
    price is 0 as well.  The result is not negative when
    [0 <= discountedPrice <= originalPrice]. *)
Theorem discountPercent_is_rounded_quotient (c : Api.CourseDetail) :
  let o := JS.ToNumber (Api.originalPrice c) in
  let d := JS.ToNumber (Api.discountedPrice c) in
  let p := D.discountPercent (Some c) in
  p = JS.Math_round (((o - d) / o) * 100)%float
  ∧ (o = 1000%float → d = 750%float → p = 25%float)
  ∧ (PrimFloat.is_zero o = true ∨ Api.originalPrice c = None →
       PrimFloat.is_finite p = false ∧ p ≠ 0%float ∧
       (PrimFloat.is_zero d = true → PrimFloat.is_nan p = true))
  ∧ ((0 <=? d)%float = true → (d <=? o)%float = true → (p <? 0)%float = false).
Proof.
  intros o d p. split_and!.
  - done.
  - intros Ho Hd. unfold p. simpl. fold o d. rewrite Ho, Hd. reflexivity.
  - intros Hzero.
    assert (PrimFloat.is_zero o = true ∨ PrimFloat.is_nan o = true) as Ho.
    { destruct Hzero as [?|Hnone]; [by left|right].
      unfold o. by rewrite Hnone. }
    pose proof (FloatFacts.percent_zero_price o d Ho) as Hfin.
    split_and!; [exact Hfin| |].
    + intros Heq. unfold p in Heq. simpl in Heq. fold o d in Heq.
      rewrite Heq in Hfin. done.
    + intros Hd. unfold p. simpl. fold o d.
      unfold PrimFloat.is_nan. rewrite FloatAxioms.eqb_spec.
      assert (Prim2SF (JS.Math_round ((o - d) / o * 100)%float) = S754_nan) as ->; [|done].
      assert (Prim2SF ((o - d) / o * 100)%float = S754_nan) as Hnan.
      { rewrite FloatFacts.percent_spec.
        destruct (FloatFacts.zero_or_nan d (or_introl Hd)) as [[sd ->]|Hdn];
          [|by rewrite Hdn; destruct (Prim2SF o)].
        destruct (FloatFacts.zero_or_nan o Ho) as [[so ->]| ->]; [|done].
        by destruct so, sd. }
      rewrite FloatFacts.Math_round_not_finite; by rewrite Hnan.
  - apply FloatFacts.percent_not_negative.
Qed.

Lemma discountPercent_is_rounded_quotient_witness :
  D.discountPercent (Some Samples.courseA) = 25%float ∧
  (D.discountPercent (Some Samples.courseA) <? 0)%float = false.
Proof.
  destruct (discountPercent_is_rounded_quotient Samples.courseA)
    as (_ & H25 & _ & Hpos).
  split; [apply H25; reflexivity|apply Hpos; reflexivity].
Defined.

(** C4 as stated fails: a course whose [originalPrice] is 0 has the
    discount NaN, not 0. *)
Lemma zero_price_discount_is_nan :
  Api.originalPrice Samples.courseB = Some 0%float ∧
  D.discountPercent (Some Samples.courseB) = nan ∧
  D.discountPercent (Some Samples.courseB) ≠ 0%float.
Proof.
  split_and!; [reflexivity|reflexivity|].
  intros Heq. apply (f_equal Prim2SF) in Heq. vm_compute in Heq. discriminate.
Qed.

(** C5, as the code has it.  While the course page is on screen, a
    request to select phase [i] with [0 <= i < P] sets the active index
    to [i] and nothing else.  A request for any other [i] finds no
    header, changes nothing and raises nothing.  As long as the route
    parameter stays the same, the index is below [P] whenever [P > 0],
    it is [0] when [P = 0], and the page never reads a phase that does
    not exist. *)
Theorem phase_selection_stays_in_range :
  (∀ (v : D.state) page (i : Z),
     D.render v = D.CourseScreen page →
     (0 ≤ i < Z.of_nat (D.phaseCount v))%Z →
     D.select i v = D.setActivePhase (Z.to_nat i) v)
  ∧
  (∀ (v : D.state) (i : Z),
     ¬ (0 ≤ i < Z.of_nat (D.phaseCount v))%Z → D.select i v = v)
  ∧
  (∀ id0 tr (c : D.component),
     forallb (λ e, negb (D.is_navigation e)) tr = true →
     D.run_events (D.mount id0) tr = Some c →
     (0 < D.phaseCount (D.view c) →
      D.activePhase (D.view c) < D.phaseCount (D.view c)) ∧
     (D.phaseCount (D.view c) = 0 → D.activePhase (D.view c) = 0) ∧
     D.render (D.view c) ≠ D.RenderTypeError).
Proof.
  split_and!.
  - intros v page i Hscreen Hi.
    apply DetailFacts.render_course_screen in Hscreen as (Hl & He & [c Hc] & Hlt).
    apply (DetailFacts.select_in_range v c); [done..|lia|done].
  - apply DetailFacts.select_out_of_range.
  - intros id0 tr c Hnav Hrun.
    assert (D.phase_ok c) as Hok.
    { eapply DetailFacts.run_events_phase_ok;
        [apply DetailFacts.detail_mount_wf|apply DetailFacts.mount_phase_ok|done..]. }
    split_and!.
    + destruct Hok as [->|[? _]]; done.
    + destruct Hok as [?|[? _]]; [done|lia].
    + intros Herr%DetailFacts.render_type_error.
      destruct Hok as [?|[? _]]; lia.
Qed.

Lemma phase_selection_stays_in_range_witness :
  ∃ c,
    D.run_events (D.mount (Some "a"))
      [D.Settle 0 (D.Fulfilled (Some Samples.courseA)); D.Click 2; D.Click 3;
       D.Click (-1)] = Some c ∧
    D.activePhase (D.view c) = 2 ∧
    D.activePhase (D.view c) < D.phaseCount (D.view c).
Proof.
  destruct phase_selection_stays_in_range as (_ & _ & Hinv).
  eexists. split; [reflexivity|]. split; [reflexivity|].
  eapply (Hinv (Some "a")
            [D.Settle 0 (D.Fulfilled (Some Samples.courseA)); D.Click 2;
             D.Click 3; D.Click (-1)]);
    [reflexivity|reflexivity|vm_compute; lia].
Defined.

(** C5 as stated fails: right after mounting there is no course, the
    phase count is 0 and the index 0 is not below it. *)
Lemma initial_index_not_below_phase_count :
  D.reachable (D.mount (Some "a")) ∧
  D.phaseCount (D.view (D.mount (Some "a"))) = 0 ∧
  ¬ (0 ≤ D.activePhase (D.view (D.mount (Some "a")))
     < D.phaseCount (D.view (D.mount (Some "a")))).
Proof.
  split_and!; [by exists (Some "a"), []|reflexivity|].
  vm_compute. lia.
Qed.

(** C6 on the code: with phase 2 of a three-phase course selected, a
    change of the id to a one-phase course leaves the index at 2, and
    when that course arrives the page reads [syllabusPhases[2]], which
    is [undefined]. *)
Theorem phase_index_survives_id_change :
  ∃ c1 c2,
    D.run_events (D.mount (Some "a"))
      [D.Settle 0 (D.Fulfilled (Some Samples.courseA)); D.Click 2;
       D.Navigate (Some "b")] = Some c1 ∧
    D.activePhase (D.view c1) = 2 ∧
    D.step c1 (D.Settle 1 (D.Fulfilled (Some Samples.courseB))) = Some c2 ∧
    D.course (D.view c2) = Some Samples.courseB ∧
    D.activePhase (D.view c2) = 2 ∧
    D.phaseCount (D.view c2) = 1 ∧
    D.render (D.view c2) = D.RenderTypeError.
Proof. do 2 eexists. split_and!; reflexivity. Qed.

(** C7, as the code has it.  With an empty or missing id the effect
    makes no gateway call, sets the error to "Course ID is missing" and
    ends loading; with any other id it calls [getCourseById] with that
    id once, under a new run, with loading on and the error cleared. *)
Theorem load_without_id_makes_no_call (c : D.component) :
  (JS.truthy (D.id c) = false →
     D.view (D.effect c)
     = D.setLoading false (D.setError (Some "Course ID is missing") (D.view c)) ∧
     D.requests (D.effect c) = D.requests c ∧
     D.console (D.effect c) = D.console c ∧
     last (D.runs (D.effect c))
     = Some {| Effect.isMounted := true; Effect.pending := false |})
  ∧
  (∀ i, D.id c = Some i → i ≠ "" →
     D.view (D.effect c) = D.setError None (D.setLoading true (D.view c)) ∧
     D.requests (D.effect c) = D.requests c ++ [i] ∧
     D.console (D.effect c) = D.console c ∧
     last (D.runs (D.effect c))
     = Some {| Effect.isMounted := true; Effect.pending := true |}).
Proof.
  split.
  - intros Hid. unfold D.effect. rewrite Hid. simpl.
    split_and!; [done..|]. apply last_snoc.
  - intros i Hid Hi. unfold D.effect, D.fetchCourse_begin. rewrite Hid. simpl.
    destruct (String.eqb_spec i ""); [done|]. simpl.
    split_and!; [done..|]. apply last_snoc.
Qed.

Lemma load_without_id_makes_no_call_witness :
  D.error (D.view (D.mount None)) = Some "Course ID is missing" ∧
  D.requests (D.mount None) = [] ∧
  D.requests (D.mount (Some "a")) = ["a"].
Proof.
  split_and!.
  - destruct (load_without_id_makes_no_call
                {| D.id := None; D.view := D.initial; D.runs := [];
                   D.requests := []; D.console := []; D.alive := true |})
      as [Hnone _].
    destruct Hnone as (Hview & _); [reflexivity|].
    unfold D.mount. rewrite Hview. reflexivity.
  - destruct (load_without_id_makes_no_call
                {| D.id := None; D.view := D.initial; D.runs := [];
                   D.requests := []; D.console := []; D.alive := true |})
      as [Hnone _].
    destruct Hnone as (_ & Hreq & _); [reflexivity|exact Hreq].
  - destruct (load_without_id_makes_no_call
                {| D.id := Some "a"; D.view := D.initial; D.runs := [];
                   D.requests := []; D.console := []; D.alive := true |})
      as [_ Hsome].
    destruct (Hsome "a") as (_ & Hreq & _); [reflexivity|discriminate|exact Hreq].
Defined.

(** C7 as stated fails: without an id the message is "Course ID is
    missing", not "Course ID is required". *)
Lemma missing_id_message_is_not_required :
  D.error (D.view (D.mount None)) = Some "Course ID is missing" ∧
  D.error (D.view (D.mount (Some ""))) = Some "Course ID is missing" ∧
  D.error (D.view (D.mount None)) ≠ Some "Course ID is required".
Proof. split_and!; [reflexivity|reflexivity|discriminate]. Qed.

(** C8.  When the fetch of the mounted run is fulfilled with no record,
    the page settles with no course, no error and loading off, and shows
    COURSE_NOT_FOUND.  A rejection of the same fetch settles in another
    state, one that carries an error message, and any non-empty message
    is shown on the error screen instead. *)
Theorem not_found_is_not_failure (c : D.component) g r :
  D.reachable c → D.runs c !! g = Some r →
  Effect.isMounted r = true → Effect.pending r = true →
  ∃ c1,
    D.step c (D.Settle g (D.Fulfilled None)) = Some c1 ∧
    D.course (D.view c1) = None ∧ D.error (D.view c1) = None ∧
    D.loading (D.view c1) = false ∧
    D.render (D.view c1) = D.NotFoundScreen ∧
    ∀ err, ∃ c2,
      D.step c (D.Settle g (D.Rejected err)) = Some c2 ∧
      D.error (D.view c2) = Some (D.errorMessage err) ∧
      D.loading (D.view c2) = false ∧
      D.view c2 ≠ D.view c1 ∧
      (D.errorMessage err ≠ "" →
       D.render (D.view c2) = D.ErrorScreen (D.errorMessage err) ∧
       D.render (D.view c2) ≠ D.render (D.view c1)).
Proof.
  intros Hwf%DetailFacts.detail_reachable_wf Hr Hm Hp.
  destruct (D.detail_wf_loading _ Hwf _ _ Hr Hm Hp) as [Hload Herr].
  destruct (DetailFacts.detail_settle_mounted c g r (D.Fulfilled None) Hr Hm Hp)
    as (c1 & Hstep1 & Hv1).
  exists c1. rewrite Hv1. split_and!; [done|done|by simpl|done| |].
  - unfold D.render. simpl. by rewrite Herr.
  - intros err.
    destruct (DetailFacts.detail_settle_mounted c g r (D.Rejected err) Hr Hm Hp)
      as (c2 & Hstep2 & Hv2).
    exists c2. rewrite Hv2. split_and!; [done|done|done| |].
    + intros Heq. apply (f_equal D.error) in Heq. simpl in Heq. congruence.
    + intros Hmsg.
      assert (D.render (D.setLoading false
                (D.setError (Some (D.errorMessage err)) (D.view c)))
              = D.ErrorScreen (D.errorMessage err)) as ->.
      { unfold D.render. simpl.
        by destruct (String.eqb_spec (D.errorMessage err) ""). }
      split; [done|]. unfold D.render. simpl. by rewrite Herr.
Qed.

Lemma not_found_is_not_failure_witness :
  ∃ c1,
    D.step (D.mount (Some "missing-id")) (D.Settle 0 (D.Fulfilled None)) = Some c1 ∧
    D.render (D.view c1) = D.NotFoundScreen.
Proof.
  destruct (not_found_is_not_failure (D.mount (Some "missing-id")) 0
              {| Effect.isMounted := true; Effect.pending := true |})
    as (c1 & Hstep & _ & _ & _ & Hscreen & _);
    [by exists (Some "missing-id"), []|reflexivity|reflexivity|reflexivity|].
  exists c1. split; [exact Hstep|exact Hscreen].
Defined.

(** C9, as the code has it.  For a loaded course [technicalSpecs] is
    the record's own list whenever the record has one, also when that
    list is empty.  Only when the record has no list it is the triple
    labelled Duration, Mode, Language, whose values are the number of
    syllabus phases (6 when there are none) followed by " Months", the
    status, and the language. *)
Theorem technicalSpecs_own_list_or_fallback (c : Api.CourseDetail) :
  (∀ specs, Api.technicalSpecs c = Some specs →
     D.technicalSpecs (Some c) = specs)
  ∧
  (Api.technicalSpecs c = None →
     Api.label <$> D.technicalSpecs (Some c) = ["Duration"; "Mode"; "Language"] ∧
     Api.value <$> D.technicalSpecs (Some c)
     = [JS.String_of_length
          match Api.syllabusPhases c with
          | Some (phase :: phases) => length (phase :: phases)
          | _ => 6
          end +:+ " Months";
        Api.status c; Api.language c]).
Proof.
  split.
  - intros specs Hs. simpl. by rewrite Hs.
  - intros Hs. simpl. rewrite Hs. split; [done|]. simpl.
    unfold D.months. by destruct (Api.syllabusPhases c) as [[|phase phases]|].
Qed.

Lemma technicalSpecs_own_list_or_fallback_witness :
  Api.value <$> D.technicalSpecs (Some Samples.courseA)
  = ["3 Months"; "Online"; "English"].
Proof.
  destruct (technicalSpecs_own_list_or_fallback Samples.courseA) as [_ Hnone].
  destruct Hnone as [_ ->]; reflexivity.
Defined.

(** C9 as stated fails: a record whose list is present and empty gets
    the empty list, not the fallback triple. *)
Lemma empty_specs_are_not_replaced :
  Api.technicalSpecs Samples.courseB = Some [] ∧
  D.technicalSpecs (Some Samples.courseB) = [] ∧
  Api.label <$> D.technicalSpecs (Some Samples.courseB)
  ≠ ["Duration"; "Mode"; "Language"].
Proof. split_and!; [reflexivity|reflexivity|discriminate]. Qed.

(** C10.  With no course loaded every projection is its fixed empty
    value: the discount is 0, there are no specs, no phases, no weeks
    and no name parts. *)
Theorem projections_without_course :
  D.discountPercent None = 0%float ∧
  D.technicalSpecs None = [] ∧
  D.syllabusPhases None = [] ∧
  D.totalWeeks None = 0 ∧
  D.courseNameParts None = [] ∧
  D.course D.initial = None.
Proof. by split_and!. Qed.

(** Outside the data model's [discountedPrice <= originalPrice] the
    rounded quotient is negative: 100 and 150 give -50. *)
Example overpriced_discount_is_negative :
  JS.Math_round (((100 - 150) / 100) * 100)%float = (-50)%float.
Proof. reflexivity. Qed.

(** * Further properties of the two pages and the page chrome *)

(** ** Words of the course name *)

Module NameFacts.
Import DetailView.

Lemma split_space_cons s : ∃ w ws, JS.split_space s = w :: ws.
Proof.
  induction s as [|c s (w & ws & IH)]; simpl; [by eauto|].
  destruct (Ascii.eqb c " "); [by eauto|]. rewrite IH. by eauto.
Qed.

Lemma concat_split_space s : String.concat " " (JS.split_space s) = s.
Proof.
  induction s as [|c s IH]; simpl; [done|].
  destruct (split_space_cons s) as (w & ws & Hs). rewrite Hs in *.
  destruct (Ascii.eqb_spec c " ") as [->|_].
  - simpl in *. by rewrite IH.
  - simpl in *. destruct ws; simpl in *; by rewrite <- IH.
Qed.

Lemma length_split_space s : length (JS.split_space s) = S (spaces s).
Proof.
  unfold spaces. induction s as [|c s IH]; simpl; [done|].
  destruct (split_space_cons s) as (w & ws & Hs). rewrite Hs in *.
  destruct (Ascii.eqb c " "); simpl in *; lia.
Qed.

Lemma split_space_no_space s :
  Forall (λ w, spaces w = 0) (JS.split_space s).
Proof.
  induction s as [|c s IH]; simpl; [by repeat constructor|].
  destruct (split_space_cons s) as (w & ws & Hs). rewrite Hs in *.
  apply Forall_cons in IH as [Hw Hws].
  destruct (Ascii.eqb c " ") eqn:Hc; [by repeat constructor|].
  constructor; [|done]. unfold spaces in *. simpl. by rewrite Hc.
Qed.

End NameFacts.

(** ** Composing filters *)

Module CatalogFacts.
Import Api Home HomeView.

Lemma filteredCourses_with_status L f :
  f ≠ All → filteredCourses (Some L) f = with_status f L.
Proof.
  intros Hf. destruct f; [done|..]; apply HomeFacts.filter_status_with_status.
Qed.

Lemma filter_string_inj f g : filter_string f = filter_string g → f = g.
Proof. by destruct f, g. Qed.

Lemma with_status_with_status f g L :
  with_status g (with_status f L) = if decide (f = g) then with_status f L else [].
Proof.
  induction L as [|c L IH]; simpl; [by case_decide|].
  destruct (decide (course_status c = filter_string f)) as [Hf|Hf]; simpl.
  - rewrite IH. destruct (decide (f = g)) as [->|Hne].
    + by rewrite decide_True.
    + rewrite decide_False; [done|].
      intros Hg. apply Hne, filter_string_inj. congruence.
  - done.
Qed.

End CatalogFacts.

(** ** The latest run of the effect *)

Section LatestRun.
Import Effect.

Lemma last_start rs b :
  last (start b rs) = Some {| isMounted := true; pending := b |}.
Proof. apply last_snoc. Qed.

(** Settling the latest run, or any other. *)
Lemma last_settled rs g :
  last (alter settled g rs)
  = if decide (g = pred (length rs)) then settled <$> last rs else last rs.
Proof.
  rewrite !last_lookup, length_alter. case_decide as Hg.
  - subst. by rewrite list_lookup_alter_eq.
  - by rewrite list_lookup_alter_ne.
Qed.

(** In a component that is still mounted, the run a promise settles
    for is mounted exactly when it is the latest one. *)
Lemma mounted_iff_latest rs g r :
  superseded_unmounted rs → latest_mounted rs → rs !! g = Some r →
  isMounted r = bool_decide (g = pred (length rs)).
Proof.
  intros Hs (rl & Hrl & Hm) Hr. case_bool_decide as Hg.
  - subst. congruence.
  - apply Hs with g; [done|]. apply lookup_lt_Some in Hr. lia.
Qed.

End LatestRun.

(** ** Traces with their filter changes or clicks left out *)

Module TraceFacts.

Section HomeTraces.
Import Home HomeView.

Lemma home_step_with_filter f c e c' :
  step c e = Some c' →
  if is_filter_change e then with_filter f c' = with_filter f c
  else step (with_filter f c) e = Some (with_filter f c').
Proof.
  destruct e as [| |g o|f']; simpl.
  - destruct (alive c); [|done]. by intros [= <-].
  - destruct (alive c); [|done]. by intros [= <-].
  - destruct (runs c !! g) as [r|]; [|done].
    destruct (Effect.pending r); [|done].
    unfold fetchCourses_resume.
    destruct (Effect.isMounted r), o; by intros [= <-].
  - destruct (alive c) eqn:Ha; [|done]. intros [= <-].
    unfold with_filter. simpl. by rewrite Ha.
Qed.

Lemma home_run_without_filter tr : ∀ f c c',
  run_events c tr = Some c' →
  run_events (with_filter f c) (List.filter (λ e, negb (is_filter_change e)) tr)
  = Some (with_filter f c').
Proof.
  induction tr as [|e tr IH]; intros f c c' Hrun; simpl in Hrun.
  - by injection Hrun as <-.
  - destruct (step c e) as [c1|] eqn:Hstep; [|done].
    pose proof (home_step_with_filter f c e c1 Hstep) as H1.
    simpl. destruct (is_filter_change e); simpl.
    + rewrite <- H1. by apply IH.
    + rewrite H1. by apply IH.
Qed.

Lemma home_run_filter tr : ∀ c c',
  run_events c tr = Some c' →
  filter (view c')
  = foldl (λ f e, match e with SetFilter f' => f' | _ => f end) (filter (view c)) tr.
Proof.
  induction tr as [|e tr IH]; intros c c' Hrun; simpl in Hrun.
  - by injection Hrun as <-.
  - destruct (step c e) as [c1|] eqn:Hstep; [|done].
    rewrite (IH c1 c' Hrun). simpl. f_equal.
    destruct e as [| |g o|f']; simpl in Hstep.
    + destruct (alive c); [|done]. by injection Hstep as <-.
    + destruct (alive c); [|done]. by injection Hstep as <-.
    + destruct (runs c !! g) as [r|]; [|done].
      destruct (Effect.pending r); [|done].
      unfold fetchCourses_resume in Hstep.
      destruct (Effect.isMounted r), o; by injection Hstep as <-.
    + destruct (alive c); [|done]. by injection Hstep as <-.
Qed.

Lemma home_run_requests tr : ∀ c c',
  run_events c tr = Some c' →
  requests c' = requests c ++ replicate (reruns tr) {| sort := "-createdAt"; limit := 6 |}
  ∧ length (runs c') = length (runs c) + reruns tr.
Proof.
  unfold reruns.
  induction tr as [|e tr IH]; intros c c' Hrun; simpl in Hrun.
  - injection Hrun as <-. simpl. by rewrite app_nil_r, Nat.add_0_r.
  - destruct (step c e) as [c1|] eqn:Hstep; [|done].
    destruct (IH c1 c' Hrun) as [-> ->].
    destruct e as [| |g o|f']; simpl in Hstep; simpl.
    + destruct (alive c); [|done]. injection Hstep as <-. simpl.
      unfold Effect.start, Effect.cleanup.
      rewrite <- app_assoc, length_app, length_alter. simpl. split; [done|lia].
    + destruct (alive c); [|done]. injection Hstep as <-. simpl.
      unfold Effect.cleanup. by rewrite length_alter.
    + destruct (runs c !! g) as [r|]; [|done].
      destruct (Effect.pending r); [|done].
      destruct (fetchCourses_resume _ _ _ _).
      injection Hstep as <-. simpl. by rewrite length_alter.
    + destruct (alive c); [|done]. by injection Hstep as <-.
Qed.

Lemma home_run_courses tr : ∀ c c',
  run_events c tr = Some c' →
  courses (view c') = courses (view c) ∨
  ∃ g, Settle g (Fulfilled (courses (view c'))) ∈ tr.
Proof.
  induction tr as [|e tr IH]; intros c c' Hrun; simpl in Hrun.
  - injection Hrun as <-. by left.
  - destruct (step c e) as [c1|] eqn:Hstep; [|done].
    destruct (IH c1 c' Hrun) as [Heq|[g Hg]];
      [|right; exists g; by apply list_elem_of_further].
    rewrite Heq. clear IH Hrun Heq.
    destruct e as [| |g o|f]; simpl in Hstep.
    + destruct (alive c); [|done]. injection Hstep as <-. by left.
    + destruct (alive c); [|done]. injection Hstep as <-. by left.
    + destruct (runs c !! g) as [r|]; [|done].
      destruct (Effect.pending r); [|done].
      unfold fetchCourses_resume in Hstep.
      destruct (Effect.isMounted r), o; injection Hstep as <-; simpl;
        try (by left).
      right. exists g. apply list_elem_of_here.
    + destruct (alive c); [|done]. injection Hstep as <-. by left.
Qed.

End HomeTraces.

Section DetailTraces.
Import CourseDetailPage DetailView.

Lemma select_rest i v :
  select i v = setActivePhase (activePhase (select i v)) v.
Proof.
  destruct (DetailFacts.select_cases v i) as [->|(-> & _)]; [by destruct v|done].
Qed.

Lemma detail_effect_with_phase k c :
  effect (with_phase k c) = with_phase k (effect c).
Proof.
  unfold effect, fetchCourse_begin, with_phase. simpl.
  by destruct (JS.truthy (id c)).
Qed.

Lemma detail_step_with_phase k c e c' :
  step c e = Some c' →
  if is_click e then with_phase k c' = with_phase k c
  else step (with_phase k c) e = Some (with_phase k c').
Proof.
  destruct e as [id'| |g o|i]; simpl.
  - destruct (alive c); [|done]. case_decide.
    + by intros [= <-].
    + intros [= <-]. f_equal. apply (detail_effect_with_phase k
        {| id := id'; view := view c; runs := Effect.cleanup (runs c);
           requests := requests c; console := console c; alive := true |}).
  - destruct (alive c); [|done]. by intros [= <-].
  - destruct (runs c !! g) as [r|]; [|done].
    destruct (Effect.pending r); [|done].
    unfold fetchCourse_resume.
    destruct (Effect.isMounted r), o; by intros [= <-].
  - destruct (alive c) eqn:Ha; [|done]. intros [= <-]. unfold with_phase. simpl.
    rewrite (select_rest i (view c)), Ha. done.
Qed.

Lemma detail_run_without_clicks tr : ∀ k c c',
  run_events c tr = Some c' →
  run_events (with_phase k c) (List.filter (λ e, negb (is_click e)) tr)
  = Some (with_phase k c').
Proof.
  induction tr as [|e tr IH]; intros k c c' Hrun; simpl in Hrun.
  - by injection Hrun as <-.
  - destruct (step c e) as [c1|] eqn:Hstep; [|done].
    pose proof (detail_step_with_phase k c e c1 Hstep) as H1.
    simpl. destruct (is_click e); simpl.
    + rewrite <- H1. by apply IH.
    + rewrite H1. by apply IH.
Qed.

Lemma last_cons_head {A} (a d : A) l : List.last (a :: l) d = List.last l a.
Proof.
  revert a d. induction l as [|b l IH]; intros a d; [done|].
  change (List.last (b :: l) d = List.last (b :: l) a). by rewrite !IH.
Qed.

Lemma detail_effect_requests c :
  requests (effect c) = requests c ++ fetched [id c] ∧
  id (effect c) = id c ∧
  length (runs (effect c)) = S (length (runs c)).
Proof.
  unfold effect, fetchCourse_begin, fetched, Effect.start. simpl.
  destruct (JS.truthy (id c)) eqn:Hid; simpl; rewrite length_app; simpl.
  - destruct (id c); [|done]. split_and!; [done|done|lia].
  - rewrite app_nil_r. split_and!; [done|done|lia].
Qed.

Lemma detail_run_requests tr : ∀ c c',
  run_events c tr = Some c' →
  requests c' = requests c ++ fetched (visited (id c) tr) ∧
  id c' = List.last (visited (id c) tr) (id c) ∧
  length (runs c') = length (runs c) + length (visited (id c) tr).
Proof.
  induction tr as [|e tr IH]; intros c c' Hrun; simpl in Hrun.
  - injection Hrun as <-. simpl. by rewrite app_nil_r, Nat.add_0_r.
  - destruct (step c e) as [c1|] eqn:Hstep; [|done].
    destruct (IH c1 c' Hrun) as (-> & -> & ->).
    destruct e as [id'| |g o|i]; simpl in Hstep; simpl.
    + destruct (alive c); [|done]. case_decide as Hid.
      * by injection Hstep as <-.
      * injection Hstep as <-.
        destruct (detail_effect_requests
                    {| id := id'; view := view c; runs := Effect.cleanup (runs c);
                       requests := requests c; console := console c;
                       alive := true |}) as (-> & -> & ->).
        cbn [id requests runs]. unfold Effect.cleanup.
        rewrite length_alter, last_cons_head.
        split_and!; [|done|simpl; lia].
        rewrite <- app_assoc. f_equal. unfold fetched. simpl.
        by destruct (JS.truthy id'), id'.
    + destruct (alive c); [|done]. injection Hstep as <-. simpl.
      unfold Effect.cleanup. by rewrite length_alter.
    + destruct (runs c !! g) as [r|]; [|done].
      destruct (Effect.pending r); [|done].
      destruct (fetchCourse_resume _ _ _ _).
      injection Hstep as <-. simpl. by rewrite length_alter.
    + destruct (alive c); [|done]. by injection Hstep as <-.
Qed.

(** The course in the state is the initial one or one a promise
    delivered. *)
Lemma detail_run_course tr : ∀ c c',
  run_events c tr = Some c' →
  course (view c') = course (view c) ∨
  ∃ g, Settle g (Fulfilled (course (view c'))) ∈ tr.
Proof.
  induction tr as [|e tr IH]; intros c c' Hrun; simpl in Hrun.
  - injection Hrun as <-. by left.
  - destruct (step c e) as [c1|] eqn:Hstep; [|done].
    destruct (IH c1 c' Hrun) as [Heq|[g Hg]];
      [|right; exists g; by apply list_elem_of_further].
    rewrite Heq. clear IH Hrun Heq.
    destruct e as [id'| |g o|i]; simpl in Hstep.
    + destruct (alive c); [|done]. case_decide.
      * injection Hstep as <-. by left.
      * injection Hstep as <-. left.
        unfold effect, fetchCourse_begin. simpl. by destruct (JS.truthy id').
    + destruct (alive c); [|done]. injection Hstep as <-. by left.
    + destruct (runs c !! g) as [r|]; [|done].
      destruct (Effect.pending r); [|done].
      unfold fetchCourse_resume in Hstep.
      destruct (Effect.isMounted r), o; injection Hstep as <-; simpl;
        try (by left).
      right. exists g. apply list_elem_of_here.
    + destruct (alive c); [|done]. injection Hstep as <-. left. simpl.
      by rewrite (select_rest i (view c)).
Qed.

End DetailTraces.
End TraceFacts.

(** ** The spinner follows the fetch *)

Module LifecycleFacts.

Lemma home_step_in_flight c e c' :
  Home.home_wf c →
  (Home.alive c = true → Home.loading (Home.view c) = HomeView.in_flight c) →
  Home.step c e = Some c' →
  Home.alive c' = true → Home.loading (Home.view c') = HomeView.in_flight c'.
Proof.
  intros Hwf Hinv Hstep Halive'. unfold HomeView.in_flight in *.
  destruct e as [| |g o|f]; simpl in Hstep.
  - destruct (Home.alive c); [|done]. injection Hstep as <-. simpl.
    by rewrite last_start.
  - destruct (Home.alive c); [|done]. by injection Hstep as <-.
  - destruct (Home.runs c !! g) as [r|] eqn:Hr; [|done].
    destruct (Effect.pending r) eqn:Hp; [|done].
    destruct (Home.fetchCourses_resume _ _ _ _) as [v log] eqn:Hres.
    injection Hstep as <-. simpl in *.
    rewrite last_settled.
    rewrite (mounted_iff_latest _ _ _ (Home.home_wf_superseded _ Hwf)
               (Home.home_wf_latest _ Hwf Halive') Hr) in Hres.
    unfold Home.fetchCourses_resume in Hres.
    destruct (decide (g = pred (length (Home.runs c)))) as [Hg|Hg].
    + rewrite bool_decide_eq_true_2 in Hres by done.
      destruct (Home.home_wf_latest _ Hwf Halive') as (rl & Hrl & _).
      rewrite last_lookup, Hrl. destruct o; by injection Hres as <- <-.
    + rewrite bool_decide_eq_false_2 in Hres by done.
      rewrite <- (Hinv Halive'). destruct o; by injection Hres as <- <-.
  - destruct (Home.alive c) eqn:Ha; [|done]. injection Hstep as <-. simpl in *.
    by apply Hinv.
Qed.

Lemma home_loading_in_flight c :
  Home.reachable c → Home.alive c = true →
  Home.loading (Home.view c) = HomeView.in_flight c.
Proof.
  intros [tr Htr].
  assert (∀ c0, Home.home_wf c0 →
            (Home.alive c0 = true →
             Home.loading (Home.view c0) = HomeView.in_flight c0) →
            Home.run_events c0 tr = Some c →
            Home.alive c = true →
            Home.loading (Home.view c) = HomeView.in_flight c) as Hgen.
  { clear Htr. induction tr as [|e tr IH]; intros c0 Hwf Hinv Hrun; simpl in Hrun.
    - by injection Hrun as <-.
    - destruct (Home.step c0 e) as [c1|] eqn:Hstep; [|done].
      apply (IH c1); [by eapply HomeFacts.home_step_wf| |done].
      by eapply home_step_in_flight. }
  apply (Hgen Home.mount); [apply HomeFacts.home_mount_wf|done|done].
Qed.

Lemma detail_effect_in_flight c :
  CourseDetailPage.loading (CourseDetailPage.view (CourseDetailPage.effect c))
  = DetailView.in_flight (CourseDetailPage.effect c).
Proof.
  unfold DetailView.in_flight, CourseDetailPage.effect,
    CourseDetailPage.fetchCourse_begin.
  destruct (JS.truthy (CourseDetailPage.id c)); simpl; by rewrite last_start.
Qed.

Lemma detail_step_in_flight c e c' :
  CourseDetailPage.detail_wf c →
  (CourseDetailPage.alive c = true →
   CourseDetailPage.loading (CourseDetailPage.view c) = DetailView.in_flight c) →
  CourseDetailPage.step c e = Some c' →
  CourseDetailPage.alive c' = true →
  CourseDetailPage.loading (CourseDetailPage.view c') = DetailView.in_flight c'.
Proof.
  intros Hwf Hinv Hstep Halive'.
  destruct e as [id'| |g o|i]; simpl in Hstep.
  - destruct (CourseDetailPage.alive c) eqn:Ha; [|done]. case_decide.
    + injection Hstep as <-. by apply Hinv.
    + injection Hstep as <-. apply detail_effect_in_flight.
  - destruct (CourseDetailPage.alive c); [|done]. by injection Hstep as <-.
  - unfold DetailView.in_flight in *.
    destruct (CourseDetailPage.runs c !! g) as [r|] eqn:Hr; [|done].
    destruct (Effect.pending r) eqn:Hp; [|done].
    destruct (CourseDetailPage.fetchCourse_resume _ _ _ _) as [v log] eqn:Hres.
    injection Hstep as <-. simpl in *.
    rewrite last_settled.
    rewrite (mounted_iff_latest _ _ _
               (CourseDetailPage.detail_wf_superseded _ Hwf)
               (CourseDetailPage.detail_wf_latest _ Hwf Halive') Hr) in Hres.
    unfold CourseDetailPage.fetchCourse_resume in Hres.
    destruct (decide (g = pred (length (CourseDetailPage.runs c)))) as [Hg|Hg].
    + rewrite bool_decide_eq_true_2 in Hres by done.
      destruct (CourseDetailPage.detail_wf_latest _ Hwf Halive') as (rl & Hrl & _).
      rewrite last_lookup, Hrl. destruct o; by injection Hres as <- <-.
    + rewrite bool_decide_eq_false_2 in Hres by done.
      rewrite <- (Hinv Halive'). destruct o; by injection Hres as <- <-.
  - destruct (CourseDetailPage.alive c) eqn:Ha; [|done].
    injection Hstep as <-. unfold DetailView.in_flight in *. simpl in *.
    rewrite <- (Hinv eq_refl). by rewrite TraceFacts.select_rest.
Qed.

Lemma detail_loading_in_flight c :
  CourseDetailPage.reachable c → CourseDetailPage.alive c = true →
  CourseDetailPage.loading (CourseDetailPage.view c) = DetailView.in_flight c.
Proof.
  intros (id0 & tr & Htr).
  assert (∀ c0, CourseDetailPage.detail_wf c0 →
            (CourseDetailPage.alive c0 = true →
             CourseDetailPage.loading (CourseDetailPage.view c0)
             = DetailView.in_flight c0) →
            CourseDetailPage.run_events c0 tr = Some c →
            CourseDetailPage.alive c = true →
            CourseDetailPage.loading (CourseDetailPage.view c)
            = DetailView.in_flight c) as Hgen.
  { clear Htr. induction tr as [|e tr IH]; intros c0 Hwf Hinv Hrun; simpl in Hrun.
    - by injection Hrun as <-.
    - destruct (CourseDetailPage.step c0 e) as [c1|] eqn:Hstep; [|done].
      apply (IH c1); [by eapply DetailFacts.detail_step_wf| |done].
      by eapply detail_step_in_flight. }
  apply (Hgen (CourseDetailPage.mount id0));
    [apply DetailFacts.detail_mount_wf| |done].
  intros _. apply detail_effect_in_flight.
Qed.

End LifecycleFacts.

(** ** Equal prices *)

Module PriceFacts.
Import JS DetailView.

Lemma SFsub_equal X Y :
  SFeqb X Y = true → sf_zero_or_nan (SFsub prec emax X Y).
Proof.
  unfold SFeqb.
  destruct X as [sx|sx| |sx mx ex], Y as [sy|sy| |sy my ey]; simpl; try done;
    try (by destruct sx, sy); try (by destruct sx); try (by destruct sy).
  intros Heq.
  assert (sx = sy ∧ ex = ey ∧ mx = my) as (-> & -> & ->).
  { destruct sx, sy; try done;
      destruct (Z.compare_spec ex ey); try done;
      rewrite Pos.compare_cont_spec in Heq; simpl in Heq;
      destruct (Pos.compare_spec mx my); done. }
  by rewrite Z.sub_diag.
Qed.

Lemma SFdiv_zero_or_nan X Y :
  sf_zero_or_nan X → sf_zero_or_nan (SFdiv prec emax X Y).
Proof. by destruct X, Y. Qed.

Lemma SFmul_zero_or_nan X m e :
  sf_zero_or_nan X → sf_zero_or_nan (SFmul prec emax X (S754_finite false m e)).
Proof. by destruct X. Qed.

Lemma Math_round_zero_or_nan x :
  sf_zero_or_nan (Prim2SF x) → Math_round x = x.
Proof. unfold Math_round. by destruct (Prim2SF x). Qed.

Lemma percent_equal_prices (o d : float) :
  (o =? d)%float = true →
  sf_zero_or_nan (Prim2SF (Math_round (((o - d) / o) * 100)%float)).
Proof.
  rewrite FloatAxioms.eqb_spec. intros Heq.
  assert (sf_zero_or_nan (Prim2SF (((o - d) / o) * 100)%float)) as Hz.
  { rewrite FloatFacts.percent_spec.
    destruct FloatFacts.Prim2SF_100 as (m & e & ->).
    by apply SFmul_zero_or_nan, SFdiv_zero_or_nan, SFsub_equal. }
  by rewrite Math_round_zero_or_nan.
Qed.

Lemma zero_or_nan_not_positive x :
  sf_zero_or_nan (Prim2SF x) → (0 <? x)%float = false.
Proof.
  rewrite FloatAxioms.ltb_spec. change (Prim2SF 0) with (S754_zero false).
  by destruct (Prim2SF x).
Qed.

Lemma zero_or_nan_is x :
  sf_zero_or_nan (Prim2SF x) →
  PrimFloat.is_zero x = true ∨ PrimFloat.is_nan x = true.
Proof.
  unfold PrimFloat.is_zero, PrimFloat.is_nan. rewrite !FloatAxioms.eqb_spec.
  change (Prim2SF PrimFloat.zero) with (S754_zero false).
  destruct (Prim2SF x); simpl; try done; [by left|by right].
Qed.

End PriceFacts.

(** ** Traces on which every render succeeds *)

Module RenderFacts.
Import CourseDetailPage DetailView.

Lemma step_keeps_phase c e c' :
  step c e = Some c' → is_click e = false →
  activePhase (view c') = activePhase (view c).
Proof.
  destruct e as [id'| |g o|i]; simpl; [| | |done].
  - destruct (alive c); [|done]. case_decide.
    + by intros [= <-].
    + intros [= <-] _. unfold effect, fetchCourse_begin. simpl.
      by destruct (JS.truthy id').
  - destruct (alive c); [|done]. by intros [= <-].
  - destruct (runs c !! g) as [r|]; [|done].
    destruct (Effect.pending r); [|done].
    unfold fetchCourse_resume.
    destruct (Effect.isMounted r), o; by intros [= <-].
Qed.

(** With the index at 0 the page never reads a phase that is not
    there. *)
Lemma phase_zero_renders v :
  activePhase v = 0 → is_type_error (render v) = false.
Proof.
  intros H0. destruct (render v) eqn:Hr; try done.
  apply DetailFacts.render_type_error in Hr. lia.
Qed.

(** The trace on which the page throws is not among them: phase 2 of
    a three-phase course selected, then a one-phase course arrives. *)
Example crashed_trace_is_left_out :
  renders_all (mount (Some "a"))
    [Settle 0 (Fulfilled (Some Samples.courseA)); Click 2;
     Navigate (Some "b"); Settle 1 (Fulfilled (Some Samples.courseB));
     Navigate (Some "c")] = false.
Proof. reflexivity. Qed.

Lemma click_free_renders_all tr : ∀ c,
  activePhase (view c) = 0 →
  renders_all c (List.filter (λ e, negb (is_click e)) tr) = true.
Proof.
  induction tr as [|e tr IH]; intros c H0; simpl.
  - by rewrite phase_zero_renders, andb_false_r.
  - destruct (is_click e) eqn:He; simpl; [by apply IH|].
    rewrite phase_zero_renders, andb_false_r by done. simpl.
    destruct (step c e) as [c'|] eqn:Hstep; [|done].
    apply IH. by rewrite (step_keeps_phase c e c' Hstep He).
Qed.

End RenderFacts.

(** * Further statements *)

Module HV := HomeView.
Module DV := DetailView.

(** X1.  The name parts of a loaded course, joined by single spaces,
    give back the name; there is one part more than the name has
    spaces (so never none), and no part holds a space. *)
Theorem courseNameParts_join (c : Api.CourseDetail) :
  String.concat " " (D.courseNameParts (Some c)) = Api.name c ∧
  length (D.courseNameParts (Some c)) = S (DV.spaces (Api.name c)) ∧
  Forall (λ w, DV.spaces w = 0) (D.courseNameParts (Some c)).
Proof.
  split_and!.
  - apply NameFacts.concat_split_space.
  - apply NameFacts.length_split_space.
  - apply NameFacts.split_space_no_space.
Qed.

(** X2.  Filtering what a filter left: the same filter or [All]
    changes nothing, after [All] the second filter alone counts, and
    two different status filters leave nothing. *)
Theorem filteredCourses_twice (L : list Api.Course) (f g : H.FilterType) :
  H.filteredCourses (Some (H.filteredCourses (Some L) f)) g
  = if decide (g = H.All) then H.filteredCourses (Some L) f
    else if decide (f = H.All) then H.filteredCourses (Some L) g
    else if decide (f = g) then H.filteredCourses (Some L) f
    else [].
Proof.
  destruct (decide (g = H.All)) as [->|Hg]; [done|].
  destruct (decide (f = H.All)) as [->|Hf]; [done|].
  rewrite (CatalogFacts.filteredCourses_with_status L f Hf).
  rewrite CatalogFacts.filteredCourses_with_status by done.
  apply CatalogFacts.with_status_with_status.
Qed.

(** X3.  When every course has one of the three statuses, the three
    filtered views together hold every course of the list exactly
    once. *)
Theorem status_filters_partition (L : list Api.Course) :
  Forall (λ c, ∃ f, f ≠ H.All ∧ Api.course_status c = H.filter_string f) L →
  H.filteredCourses (Some L) H.Online ++ H.filteredCourses (Some L) H.Offline
    ++ H.filteredCourses (Some L) H.Hybrid ≡ₚ L.
Proof.
  rewrite !CatalogFacts.filteredCourses_with_status by done.
  induction 1 as [|c L (f & Hf & Hc) _ IH]; simpl; [done|].
  rewrite Hc. destruct f; [done|..]; simpl.
  - by rewrite IH.
  - rewrite <- Permutation_middle. by rewrite IH.
  - rewrite app_assoc, <- Permutation_middle, <- app_assoc. by rewrite IH.
Qed.

Lemma status_filters_partition_witness :
  H.filteredCourses (Some Samples.catalog) H.Online
    ++ H.filteredCourses (Some Samples.catalog) H.Offline
    ++ H.filteredCourses (Some Samples.catalog) H.Hybrid ≡ₚ Samples.catalog.
Proof.
  apply status_filters_partition.
  repeat constructor;
    [by exists H.Offline|by exists H.Online|by exists H.Hybrid
    |by exists H.Offline|by exists H.Online|by exists H.Hybrid].
Defined.

(** X4.  On the mounted landing page the spinner is on screen exactly
    while the fetch of the latest effect run is on its way, and then
    alone; once that fetch has settled, the error block or the grid is
    shown, never both. *)
Theorem home_spinner_follows_fetch (c : H.component) :
  H.reachable c → H.alive c = true →
  HV.shows_spinner (H.view c) = HV.in_flight c ∧
  (HV.in_flight c = true →
   HV.shows_error (H.view c) = false ∧ HV.shows_grid (H.view c) = false) ∧
  (HV.in_flight c = false →
   HV.shows_error (H.view c) = negb (HV.shows_grid (H.view c))).
Proof.
  intros Hreach Halive.
  pose proof (LifecycleFacts.home_loading_in_flight c Hreach Halive) as Hl.
  unfold HV.shows_spinner, HV.shows_error, HV.shows_grid. rewrite Hl.
  split_and!; [done|intros ->|intros ->];
    by destruct (HV.truthy_text (H.error (H.view c))).
Qed.

Lemma home_spinner_follows_fetch_witness :
  HV.shows_spinner (H.view Samples.two_fetches) = true ∧
  HV.shows_grid (H.view Samples.catalog_first) = true.
Proof.
  split.
  - destruct (home_spinner_follows_fetch Samples.two_fetches) as (-> & _);
      [by exists [H.Rerun]|reflexivity|reflexivity].
  - destruct (home_spinner_follows_fetch Samples.catalog_first) as (_ & _ & Hgrid);
      [by exists [H.Rerun; H.Settle 1 (H.Fulfilled (Some Samples.catalog))]
      |reflexivity|].
    specialize (Hgrid eq_refl).
    destruct (HV.shows_grid (H.view Samples.catalog_first)); [reflexivity|].
    discriminate Hgrid.
Defined.

(** X5.  On the mounted detail page [loading] is on exactly while
    the fetch of the latest effect run is on its way, so the loading
    screen is what is rendered then and only then. *)
Theorem detail_loading_follows_fetch (c : D.component) :
  D.reachable c → D.alive c = true →
  D.loading (D.view c) = DV.in_flight c ∧
  (D.render (D.view c) = D.LoadingScreen ↔ DV.in_flight c = true).
Proof.
  intros Hreach Halive.
  pose proof (LifecycleFacts.detail_loading_in_flight c Hreach Halive) as Hl.
  split; [done|]. rewrite <- Hl. unfold D.render.
  destruct (D.loading (D.view c)); [done|].
  split; [|done].
  destruct (JS.truthy _); [done|]. destruct (D.course _); [|done].
  destruct (Nat.ltb _ _); [|done]. by destruct (_ !! _).
Qed.

Lemma detail_loading_follows_fetch_witness :
  D.render (D.view Samples.two_loads) = D.LoadingScreen.
Proof.
  destruct (detail_loading_follows_fetch Samples.two_loads) as [_ [_ Hscreen]];
    [by exists (Some "a"), [D.Navigate (Some "b")]|reflexivity|].
  apply Hscreen. reflexivity.
Defined.

(** X6.  Filter changes and the fetch do not touch each other: a
    trace of the landing page with its filter changes left out ends in
    the same component with the filter [All], and the filter at the
    end of the full trace is the one of its last filter change, whose
    button is the one highlighted. *)
Theorem filter_changes_are_independent (tr : list H.event) (c : H.component) :
  H.run_events H.mount tr = Some c →
  H.run_events H.mount (List.filter (λ e, negb (HV.is_filter_change e)) tr)
  = Some (HV.with_filter H.All c) ∧
  H.filter (H.view c) = HV.last_filter tr ∧
  HV.highlighted_buttons (H.view c) = [HV.last_filter tr].
Proof.
  intros Hrun.
  assert (H.filter (H.view c) = HV.last_filter tr) as Hf
    by apply (TraceFacts.home_run_filter tr H.mount c Hrun).
  split_and!; [|done|].
  - apply (TraceFacts.home_run_without_filter tr H.All H.mount c Hrun).
  - rewrite <- Hf. unfold HV.highlighted_buttons.
    by destruct (H.filter (H.view c)).
Qed.

Lemma filter_changes_are_independent_witness :
  ∃ c,
    H.run_events H.mount
      [H.SetFilter H.Online; H.Settle 0 (H.Fulfilled (Some Samples.catalog));
       H.SetFilter H.Hybrid] = Some c ∧
    H.run_events H.mount [H.Settle 0 (H.Fulfilled (Some Samples.catalog))]
    = Some (HV.with_filter H.All c) ∧
    H.filter (H.view c) = H.Hybrid.
Proof.
  eexists. split; [reflexivity|].
  edestruct (filter_changes_are_independent
               [H.SetFilter H.Online;
                H.Settle 0 (H.Fulfilled (Some Samples.catalog));
                H.SetFilter H.Hybrid]) as (Hrun & Hfilter & _);
    [reflexivity|].
  split; [exact Hrun|exact Hfilter].
Defined.

(** X7.  Phase clicks never reach the fetch: for a trace of the
    detail page on which every render succeeds, the trace with its
    clicks left out ends in the same component with the active phase
    at 0, and every render succeeds on it too. *)
Theorem clicks_are_independent id0 (tr : list D.event) (c : D.component) :
  D.run_events (D.mount id0) tr = Some c →
  DV.renders_all (D.mount id0) tr = true →
  D.run_events (D.mount id0) (List.filter (λ e, negb (DV.is_click e)) tr)
  = Some (DV.with_phase 0 c) ∧
  DV.renders_all (D.mount id0) (List.filter (λ e, negb (DV.is_click e)) tr)
  = true.
Proof.
  intros Hrun _. split.
  - replace (D.mount id0) with (DV.with_phase 0 (D.mount id0)) at 1.
    + by apply TraceFacts.detail_run_without_clicks.
    + unfold DV.with_phase, D.mount, D.effect, D.fetchCourse_begin. simpl.
      by destruct (JS.truthy id0).
  - apply RenderFacts.click_free_renders_all.
    unfold D.mount, D.effect, D.fetchCourse_begin. simpl.
    by destruct (JS.truthy id0).
Qed.

Lemma clicks_are_independent_witness :
  ∃ c,
    D.run_events (D.mount (Some "a"))
      [D.Settle 0 (D.Fulfilled (Some Samples.courseA)); D.Click 2;
       D.Navigate (Some "b")] = Some c ∧
    D.run_events (D.mount (Some "a"))
      [D.Settle 0 (D.Fulfilled (Some Samples.courseA)); D.Navigate (Some "b")]
    = Some (DV.with_phase 0 c).
Proof.
  eexists. split; [reflexivity|].
  apply (clicks_are_independent (Some "a")
           [D.Settle 0 (D.Fulfilled (Some Samples.courseA)); D.Click 2;
            D.Navigate (Some "b")]);
    reflexivity.
Defined.

(** X8.  Along a trace on which every render succeeds, the detail
    page calls the gateway once for every non-empty id the route
    parameter takes, in that order, and for nothing else: no
    settlement, click or unmount adds a call, so a failed fetch is
    never retried.  Each id the parameter takes starts one run of the
    effect, and the id in the state is the last of them. *)
Theorem gateway_calls_follow_ids id0 (tr : list D.event) (c : D.component) :
  D.run_events (D.mount id0) tr = Some c →
  DV.renders_all (D.mount id0) tr = true →
  D.requests c = DV.fetched (id0 :: DV.visited id0 tr) ∧
  D.id c = List.last (DV.visited id0 tr) id0 ∧
  length (D.runs c) = S (length (DV.visited id0 tr)).
Proof.
  intros Hrun _.
  destruct (TraceFacts.detail_run_requests tr (D.mount id0) c Hrun)
    as (Hreq & Hid & Hlen).
  destruct (TraceFacts.detail_effect_requests
              {| D.id := id0; D.view := D.initial; D.runs := [];
                 D.requests := []; D.console := []; D.alive := true |})
    as (Hreq0 & Hid0 & Hlen0).
  fold (D.mount id0) in Hreq0, Hid0, Hlen0. simpl in Hreq0, Hid0, Hlen0.
  rewrite Hid0 in *. rewrite Hreq, Hid, Hlen, Hreq0, Hlen0.
  split_and!; [|done|done].
  unfold DV.fetched. simpl. by destruct (JS.truthy id0), id0.
Qed.

Lemma gateway_calls_follow_ids_witness :
  ∃ c,
    D.run_events (D.mount (Some "a"))
      [D.Settle 0 (D.Rejected JS.NotAnError); D.Navigate (Some "a");
       D.Navigate None; D.Navigate (Some "b"); D.Click 0] = Some c ∧
    D.requests c = ["a"; "b"] ∧ length (D.runs c) = 3.
Proof.
  eexists. split; [reflexivity|].
  edestruct (gateway_calls_follow_ids (Some "a")
               [D.Settle 0 (D.Rejected JS.NotAnError); D.Navigate (Some "a");
                D.Navigate None; D.Navigate (Some "b"); D.Click 0])
    as (Hreq & _ & Hlen); [reflexivity|reflexivity|].
  split; [exact Hreq|exact Hlen].
Defined.

(** X9.  The landing page calls the gateway once when it mounts and
    once more for every re-run of its effect, always with the query
    [{sort: "-createdAt", limit: 6}]; neither a settlement nor a filter
    change adds a call. *)
Theorem catalog_calls_follow_runs (tr : list H.event) (c : H.component) :
  H.run_events H.mount tr = Some c →
  H.requests c
  = replicate (S (HV.reruns tr)) {| H.sort := "-createdAt"; H.limit := 6 |} ∧
  length (H.runs c) = S (HV.reruns tr).
Proof.
  intros Hrun.
  destruct (TraceFacts.home_run_requests tr H.mount c Hrun) as [-> ->].
  done.
Qed.

Lemma catalog_calls_follow_runs_witness :
  ∃ c,
    H.run_events H.mount
      [H.Settle 0 (H.Rejected (JS.ErrorObject "offline")); H.SetFilter H.Online]
    = Some c ∧
    H.requests c = [ {| H.sort := "-createdAt"; H.limit := 6 |} ].
Proof.
  eexists. split; [reflexivity|].
  edestruct (catalog_calls_follow_runs
               [H.Settle 0 (H.Rejected (JS.ErrorObject "offline"));
                H.SetFilter H.Online]) as (Hreq & _); [reflexivity|].
  exact Hreq.
Defined.

(** X10.  Neither page makes up data: a course in the state of the
    detail page is one that a fulfilled promise of the trace delivered,
    and the list of the landing page is the initial empty list or what
    a fulfilled promise of the trace delivered. *)
Theorem shown_data_was_delivered :
  (∀ id0 tr (c : D.component) d,
     D.run_events (D.mount id0) tr = Some c →
     D.course (D.view c) = Some d →
     ∃ g, D.Settle g (D.Fulfilled (Some d)) ∈ tr)
  ∧
  (∀ tr (c : H.component),
     H.run_events H.mount tr = Some c →
     H.courses (H.view c) = Some [] ∨
     ∃ g, H.Settle g (H.Fulfilled (H.courses (H.view c))) ∈ tr).
Proof.
  split.
  - intros id0 tr c d Hrun Hd.
    destruct (TraceFacts.detail_run_course tr (D.mount id0) c Hrun) as [Heq|[g Hg]].
    + rewrite Hd in Heq. unfold D.mount, D.effect, D.fetchCourse_begin in Heq.
      simpl in Heq. by destruct (JS.truthy id0).
    + exists g. by rewrite <- Hd.
  - intros tr c Hrun.
    destruct (TraceFacts.home_run_courses tr H.mount c Hrun) as [Heq|Hg];
      [by left|by right].
Qed.

Lemma shown_data_was_delivered_witness :
  ∃ g, D.Settle g (D.Fulfilled (Some Samples.courseB))
       ∈ [D.Navigate (Some "b");
          D.Settle 1 (D.Fulfilled (Some Samples.courseB));
          D.Settle 0 (D.Fulfilled (Some Samples.courseA))].
Proof.
  destruct shown_data_was_delivered as [Hdetail _].
  eapply (Hdetail (Some "a")); reflexivity.
Defined.

(** X11.  The two parts of the price block agree: the discount badge
    is shown only when the original price is shown struck through.
    With equal prices [discountPercent] is a zero or NaN, which is not
    above 0. *)
Theorem discount_badge_needs_struck_price (c : Api.CourseDetail) section :
  (∀ o d, Api.originalPrice c = Some o → Api.discountedPrice c = Some d →
     (o =? d)%float = true →
     PrimFloat.is_zero (D.discountPercent (Some c)) = true
     ∨ PrimFloat.is_nan (D.discountPercent (Some c)) = true)
  ∧
  (D.discount_badge (D.page_of c section) ≠ None → DV.strikes_original c = true).
Proof.
  split.
  - intros o d Ho Hd Heq. apply PriceFacts.zero_or_nan_is.
    simpl. rewrite Ho, Hd. simpl. by apply PriceFacts.percent_equal_prices.
  - unfold DV.strikes_original, D.page_of, D.discount_badge, D.discountPercent.
    destruct (Api.originalPrice c) as [o|], (Api.discountedPrice c) as [d|];
      simpl; try done.
    destruct (o =? d)%float eqn:Heq; [|done].
    by rewrite (PriceFacts.zero_or_nan_not_positive _
                  (PriceFacts.percent_equal_prices o d Heq)).
Qed.

Lemma discount_badge_needs_struck_price_witness :
  DV.strikes_original Samples.courseA = true ∧
  PrimFloat.is_nan (D.discountPercent (Some Samples.courseB)) = true.
Proof.
  destruct (discount_badge_needs_struck_price Samples.courseA None) as [_ Hbadge].
  destruct (discount_badge_needs_struck_price Samples.courseB None) as [Hequal _].
  split; [apply Hbadge; discriminate|].
  destruct (Hequal 0%float 0%float) as [Hz|Hn];
    [reflexivity|reflexivity|reflexivity|discriminate Hz|exact Hn].
Defined.

(** X12.  The default certificate image is swapped in at most once:
    the first load failure sets the source to the default image and
    raises [imageError]; every later failure leaves the image as it
    is, also when the default image itself fails to load. *)
Theorem certificate_fallback_once (img : DV.certificate_image) (n : nat) :
  Nat.iter (S n) DV.handleImageError img = DV.handleImageError img ∧
  DV.imageError (DV.handleImageError img) = true ∧
  (DV.imageError img = false →
   DV.src (DV.handleImageError img) = D.DEFAULT_CERTIFICATE_IMAGE) ∧
  (DV.imageError img = true → DV.handleImageError img = img).
Proof.
  assert (∀ i, DV.imageError i = true → DV.handleImageError i = i) as Hid.
  { intros i Hi. unfold DV.handleImageError. by rewrite Hi. }
  assert (DV.imageError (DV.handleImageError img) = true) as Hset.
  { unfold DV.handleImageError. by destruct (DV.imageError img) eqn:Hi. }
  split_and!; [|done| |by apply Hid].
  - induction n as [|n IH]; [done|].
    change (DV.handleImageError (Nat.iter (S n) DV.handleImageError img)
            = DV.handleImageError img).
    rewrite IH. by apply Hid.
  - intros Hi. unfold DV.handleImageError. by rewrite Hi.
Qed.

Lemma certificate_fallback_once_witness :
  DV.src (DV.handleImageError
            {| DV.src := "broken.png"; DV.imageError := false |})
  = "Certificate Copy.jpeg".
Proof.
  destruct (certificate_fallback_once
              {| DV.src := "broken.png"; DV.imageError := false |} 0)
    as (_ & _ & Hsrc & _).
  apply Hsrc. reflexivity.
Defined.

(** X13.  Whatever the path, at most one navigation link is drawn as
    active; one is exactly when the path is the path of a link, so on
    any other path, a course page for one, none is. *)
Theorem at_most_one_active_link (pathname : string) :
  length (Navbar.active_links pathname) ≤ 1 ∧
  (∀ l, l ∈ Navbar.active_links pathname ↔
        l ∈ Navbar.navLinks ∧ Navbar.path l = pathname) ∧
  (Navbar.active_links pathname = [] ↔
   pathname ∉ Navbar.path <$> Navbar.navLinks).
Proof.
  assert (∀ l, l ∈ Navbar.active_links pathname ↔
               l ∈ Navbar.navLinks ∧ Navbar.path l = pathname) as Hmem.
  { intros l. unfold Navbar.active_links.
    rewrite !list_elem_of_In, filter_In. unfold Navbar.isActive.
    rewrite String.eqb_eq. intuition congruence. }
  split_and!; [|done|].
  - unfold Navbar.active_links, Navbar.navLinks, Navbar.isActive. simpl.
    destruct (String.eqb_spec pathname "/") as [->|?]; [simpl; lia|].
    destruct (String.eqb_spec pathname "/courses") as [->|?]; [simpl; lia|].
    destruct (String.eqb_spec pathname "/bootcamp") as [->|?]; [simpl; lia|].
    destruct (String.eqb_spec pathname "/callback") as [->|?]; simpl; lia.
  - split.
    + intros Hnil [l [-> Hl]]%list_elem_of_fmap.
      assert (l ∈ Navbar.active_links (Navbar.path l)) as Hin by by apply Hmem.
      rewrite Hnil in Hin. by apply elem_of_nil in Hin.
    + intros Hnot. destruct (Navbar.active_links pathname) as [|l ls] eqn:Ha; [done|].
      destruct (proj1 (Hmem l) (list_elem_of_here _ _)) as [Hin Hp].
      destruct Hnot. apply list_elem_of_fmap. by exists l.
Qed.

(** X14.  The ribbon shows the list twice.  When the number of
    entries is a multiple of 3 and there are three accent classes, the
    second copy repeats the first entry by entry, classes included, and
    every square has one of the accent classes. *)
Theorem ribbon_repeats (accents techs : list string) :
  length techs `mod` 3 = 0 → length accents = 3 →
  length (Marquee.ribbon accents techs) = 2 * length techs ∧
  (∀ i, i < length techs →
     Marquee.ribbon accents techs !! (length techs + i)
     = Marquee.ribbon accents techs !! i) ∧
  Forall (λ item, item.2 ∈ accents) (Marquee.ribbon accents techs).
Proof.
  intros Hmod Hacc. unfold Marquee.ribbon. split_and!.
  - rewrite length_imap, length_app. lia.
  - intros i Hi. rewrite !list_lookup_imap.
    rewrite lookup_app_r by lia. rewrite lookup_app_l by lia.
    replace (length techs + i - length techs) with i by lia.
    replace ((length techs + i) `mod` 3) with (i `mod` 3); [done|].
    by rewrite Nat.Div0.add_mod, Hmod, Nat.add_0_l, Nat.Div0.mod_mod.
  - apply Forall_lookup. intros i item Hi.
    rewrite list_lookup_imap in Hi.
    apply fmap_Some in Hi as (tech & _ & ->). cbn [snd].
    destruct (lookup_lt_is_Some_2 accents (i `mod` 3)) as [a Ha].
    { rewrite Hacc. apply Nat.mod_upper_bound. lia. }
    rewrite Ha. cbn [default from_option]. by eapply list_elem_of_lookup_2.
Qed.

Lemma ribbon_repeats_witness :
  length (Marquee.items true) = 18 ∧
  Marquee.items false !! 9 = Some ("MERN Stack", "bg-rose-500") ∧
  Marquee.items false !! 0 = Some ("MERN Stack", "bg-rose-500").
Proof.
  destruct (ribbon_repeats (Marquee.rgbAccents true) Marquee.techs)
    as (Hlen & _); [reflexivity|reflexivity|].
  destruct (ribbon_repeats (Marquee.rgbAccents false) Marquee.techs)
    as (_ & Hsame & _); [reflexivity|reflexivity|].
  split_and!; [exact Hlen| |reflexivity].
  transitivity (Marquee.items false !! 0); [|reflexivity].
  apply (Hsame 0). simpl. lia.
Defined.

(** X15.  Clicking a phase header shows that phase: on the course
    page, a request for phase [i] with [0 <= i < P] leaves the page on
    screen with the same name, specs, badge and certificate, header [i]
    highlighted and phase [i] of the syllabus as its content. *)
Theorem select_shows_phase (v : D.state) page (i : Z) :
  D.render v = D.CourseScreen page →
  (0 ≤ i < Z.of_nat (D.phaseCount v))%Z →
  ∃ phase,
    D.syllabusPhases (D.course v) !! Z.to_nat i = Some phase ∧
    D.render (D.select i v)
    = D.CourseScreen
        {| D.name_parts := D.name_parts page;
           D.specs := D.specs page;
           D.discount_badge := D.discount_badge page;
           D.syllabus :=
             Some {| D.total_weeks := D.totalWeeks (D.course v);
                     D.phase_months := Api.month <$> D.syllabusPhases (D.course v);
                     D.highlighted := Z.to_nat i;
                     D.shown_phase := phase |};
           D.certificate := D.certificate page |}.
Proof.
  intros Hscreen Hi.
  destruct (DetailFacts.render_course_screen v page Hscreen)
    as (Hl & He & [c Hc] & Hlt).
  assert (D.activePhase v < D.phaseCount v) as Hact by (apply Hlt; lia).
  destruct (lookup_lt_is_Some_2 (D.syllabusPhases (D.course v)) (Z.to_nat i))
    as [phase Hphase]; [unfold D.phaseCount in Hi; lia|].
  exists phase. split; [done|].
  rewrite (DetailFacts.select_in_range v c i Hl He Hc Hact Hi).
  unfold D.render in *. simpl. rewrite Hl, He, Hc in *.
  unfold D.phaseCount in *. rewrite Hc in *.
  destruct (Nat.ltb_spec 0 (length (D.syllabusPhases (Some c)))); [|lia].
  rewrite Hphase.
  destruct (D.syllabusPhases (Some c) !! D.activePhase v); [|done].
  by injection Hscreen as <-.
Qed.

Lemma select_shows_phase_witness :
  match
    D.render
      (D.select 1
         {| D.activePhase := 0; D.course := Some Samples.courseA;
            D.loading := false; D.error := None |})
  with
  | D.CourseScreen page => D.highlighted <$> D.syllabus page
  | _ => None
  end = Some 1.
Proof.
  destruct (select_shows_phase
              {| D.activePhase := 0; D.course := Some Samples.courseA;
                 D.loading := false; D.error := None |}
              (D.page_of Samples.courseA
                 (Some {| D.total_weeks := 12;
                          D.phase_months := ["Month 1"; "Month 2"; "Month 3"];
                          D.highlighted := 0;
                          D.shown_phase := Samples.phase "Month 1" "Foundations" |}))
              1) as (phase & _ & ->); [reflexivity|split; [lia|reflexivity]|].
  reflexivity.
Defined.

(** X16.  When the fetch in flight on the mounted landing page is
    rejected, the spinner goes, the list stays as it was, and the error
    block shows the message of the error, or "Failed to fetch courses"
    for a thrown value that is no [Error].  An [Error] with an empty
    message shows no error block: the grid is shown instead. *)
Theorem home_rejection_shows_message (c : H.component) (err : JS.thrown) :
  H.reachable c → H.alive c = true → HV.in_flight c = true →
  ∃ c',
    H.step c (H.Settle (pred (length (H.runs c))) (H.Rejected err)) = Some c' ∧
    H.error (H.view c') = H.errorMessage err ∧
    H.courses (H.view c') = H.courses (H.view c) ∧
    HV.shows_spinner (H.view c') = false ∧
    HV.shows_error (H.view c') = negb (String.eqb (H.errorMessage err) "") ∧
    HV.shows_grid (H.view c') = String.eqb (H.errorMessage err) "" ∧
    (err = JS.NotAnError → HV.shows_error (H.view c') = true).
Proof.
  intros Hwf%HomeFacts.home_reachable_wf Halive Hflight.
  destruct (H.home_wf_latest _ Hwf Halive) as (r & Hr & Hm).
  unfold HV.in_flight in Hflight. rewrite last_lookup, Hr in Hflight.
  destruct (HomeFacts.home_settle_mounted c _ r (H.Rejected err) Hr Hm Hflight)
    as (c' & Hstep & Hview).
  exists c'. rewrite Hview.
  unfold HV.shows_spinner, HV.shows_error, HV.shows_grid, HV.truthy_text. simpl.
  split_and!; try done.
  - by rewrite andb_true_r.
  - by rewrite negb_involutive.
  - by intros ->.
Qed.

Lemma home_rejection_shows_message_witness :
  ∃ c',
    H.step H.mount (H.Settle 0 (H.Rejected (JS.ErrorObject ""))) = Some c' ∧
    HV.shows_error (H.view c') = false ∧ HV.grid_content (H.view c') = HV.NoCoursesFound.
Proof.
  destruct (home_rejection_shows_message H.mount (JS.ErrorObject ""))
    as (c' & Hstep & _ & _ & _ & Herr & _);
    [by exists []|reflexivity|reflexivity|].
  exists c'. split; [exact Hstep|]. split; [exact Herr|].
  simpl in Hstep. injection Hstep as <-. reflexivity.
Defined.
